(** * storage-api: upload path resolution, filename derivation, bulk delete

    A shallow embedding of [src/index.ts] (an Express application with a
    multer disk storage) and the properties of its path normaliser, its
    storage callbacks, its API-key middleware and its two protected
    routes.

    Conventions of the model.
    - The user path, the one string that goes through
      [String.prototype.toLowerCase], is a [text]: a list of UTF-16 code
      units.  The case mapping itself belongs to the runtime; the
      program gets it from the [World] it runs in, and the statements
      that need it name the laws they use ([noUpperCase], [asciiCase]).
    - File names and file-system paths are [string]s; the functions on
      them treat all code units above U+007F alike.
    - The file system and the response are threaded explicitly through
      the middleware chain ([World], [Outcome]).
    - Node's [path] module is embedded in its POSIX flavour.
    - A multipart body is handled as one that arrives in one piece:
      every part is seen, in order, before the first file-system
      callback runs. *)

From Stdlib Require Import Ascii String DecimalString NArith.
From Stdlib Require DecimalN DecimalPos.
From stdpp Require Import gmap strings list fin_maps.

Set Warnings "-register-all".

Local Open Scope string_scope.
Local Open Scope nat_scope.

(** ** JavaScript strings *)

Module JsString.

Definition code (c : ascii) : nat := nat_of_ascii c.

Definition between (lo hi : nat) (c : ascii) : bool :=
  (lo <=? code c) && (code c <=? hi).

(** The character classes [A-Z], [a-z] and [0-9]. *)
Definition isUpper : ascii -> bool := between 65 90.
Definition isLower : ascii -> bool := between 97 122.
Definition isDigit : ascii -> bool := between 48 57.

Definition isSlash (c : ascii) : bool := code c =? 47.
Definition isDot (c : ascii) : bool := code c =? 46.

(** [[a-zA-Z0-9]] *)
Definition isAlnum (c : ascii) : bool := isLower c || isUpper c || isDigit c.

(** [[a-z0-9]] *)
Definition isLowerAlnum (c : ascii) : bool := isLower c || isDigit c.

(** [s.replace(/[cls]+/g, rep)]: every maximal run of characters of the
    class [cls] is replaced by one copy of [rep].  [inRun] tells
    whether the previous character already belonged to a run. *)
Fixpoint replaceRunsFrom (cls : ascii -> bool) (rep : string)
         (inRun : bool) (s : string) : string :=
  match s with
  | EmptyString => EmptyString
  | String c t =>
      if cls c
      then (if inRun then replaceRunsFrom cls rep true t
            else rep ++ replaceRunsFrom cls rep true t)
      else String c (replaceRunsFrom cls rep false t)
  end.

Definition replaceRuns (cls : ascii -> bool) (rep s : string) : string :=
  replaceRunsFrom cls rep false s.

(** [hay.startsWith(needle)] and [hay.includes(needle)] *)
Fixpoint startsWith (hay needle : string) {struct needle} : bool :=
  match needle with
  | EmptyString => true
  | String a needle' =>
      match hay with
      | EmptyString => false
      | String b hay' => Ascii.eqb a b && startsWith hay' needle'
      end
  end.

Fixpoint includes (hay needle : string) : bool :=
  startsWith hay needle ||
  match hay with
  | EmptyString => false
  | String _ t => includes t needle
  end.

(** The characters of a string, as a list. *)
Definition chars (s : string) : list ascii := list_ascii_of_string s.

(** [s.split(sep)] for a one-character separator: the pieces between
    the separators, the empty ones included. *)
Fixpoint splitOn (sep : ascii) (s : string) : list string :=
  match s with
  | EmptyString => [EmptyString]
  | String c t =>
      if Ascii.eqb c sep then EmptyString :: splitOn sep t
      else match splitOn sep t with
           | [] => [String c EmptyString]
           | p :: ps => String c p :: ps
           end
  end.

(** [parts.join(sep)] *)
Fixpoint join (sep : string) (parts : list string) : string :=
  match parts with
  | [] => EmptyString
  | [p] => p
  | p :: ps => p ++ sep ++ join sep ps
  end.

(** [hay.endsWith(needle)]: some tail of [hay] is [needle]. *)
Fixpoint endsWith (hay needle : string) : bool :=
  String.eqb hay needle ||
  match hay with
  | EmptyString => false
  | String _ t => endsWith t needle
  end.

(** The last character, if any. *)
Fixpoint lastChar (s : string) : option ascii :=
  match s with
  | EmptyString => None
  | String c EmptyString => Some c
  | String _ t => lastChar t
  end.

Definition nonEmpty (s : string) : bool := negb (String.eqb s EmptyString).

(** [s.slice(0, s.length - k)] *)
Definition dropEnd (k : nat) (s : string) : string :=
  String.substring 0 (String.length s - k) s.

(** [s.slice(k)] *)
Definition dropStart (k : nat) (s : string) : string :=
  String.substring k (String.length s - k) s.

(** [s.replace(pat, rep)] with a string pattern: the first occurrence
    only. *)
Fixpoint replaceFirst (pat rep s : string) : string :=
  if startsWith s pat then rep ++ dropStart (String.length pat) s
  else match s with
       | EmptyString => EmptyString
       | String c t => String c (replaceFirst pat rep t)
       end.

(** A non-negative integer in a template literal: its decimal digits. *)
Definition decimal (n : N) : string := NilZero.string_of_uint (N.to_uint n).

End JsString.

Import JsString.

Arguments chars : simpl never.

(** ** JavaScript strings as UTF-16 *)

Module Utf16.

(** A string by its UTF-16 code units. *)
Definition text : Type := list N.

Definition betweenU (lo hi u : N) : bool := ((lo <=? u) && (u <=? hi))%N.

(** The code units of [A-Z], [a-z], [0-9] and [/]. *)
Definition isUpperU : N -> bool := betweenU 65 90.
Definition isLowerU : N -> bool := betweenU 97 122.
Definition isDigitU : N -> bool := betweenU 48 57.
Definition isSlashU (u : N) : bool := (u =? 47)%N.

(** [[a-zA-Z0-9]] and [[a-z0-9]] *)
Definition isAlnumU (u : N) : bool := isLowerU u || isUpperU u || isDigitU u.
Definition isLowerAlnumU (u : N) : bool := isLowerU u || isDigitU u.

(** The code units of a [string], and the [string] of code units below
    U+0100. *)
Definition unitsOf (s : string) : text := List.map N_of_ascii (chars s).
Definition pathText (t : text) : string :=
  string_of_list_ascii (List.map ascii_of_N t).

(** [t.replace(/[cls]+/g, rep)] on code units: every maximal run of
    units of the class is replaced by one copy of [rep]. *)
Fixpoint replaceRunsFromU (cls : N -> bool) (rep : text) (inRun : bool)
         (t : text) : text :=
  match t with
  | [] => []
  | u :: rest =>
      if cls u
      then (if inRun then replaceRunsFromU cls rep true rest
            else rep ++ replaceRunsFromU cls rep true rest)%list
      else u :: replaceRunsFromU cls rep false rest
  end.

Definition replaceRunsU (cls : N -> bool) (rep t : text) : text :=
  replaceRunsFromU cls rep false t.

(** [t.includes(needle)] on code units. *)
Fixpoint startsWithU (hay needle : text) {struct needle} : bool :=
  match needle with
  | [] => true
  | a :: needle' =>
      match hay with
      | [] => false
      | b :: hay' => (a =? b)%N && startsWithU hay' needle'
      end
  end.

Fixpoint includesU (hay needle : text) : bool :=
  startsWithU hay needle ||
  match hay with
  | [] => false
  | _ :: rest => includesU rest needle
  end.

(** What [toLowerCase] does to a code unit of an ASCII string. *)
Definition lowerAsciiUnit (u : N) : N := if isUpperU u then (u + 32)%N else u.

(** A case mapping for the closed examples.  It is
    [String.prototype.toLowerCase] on the code units below U+0100, on
    U+0130 (which becomes [i] and U+0307), on U+212A (the Kelvin sign,
    which becomes [k]) and on U+212B; the other code units it leaves
    alone. *)
Definition lowerUnit (u : N) : text :=
  if isUpperU u || (betweenU 192 222 u && negb (u =? 215)%N) then [(u + 32)%N]
  else if (u =? 304)%N then [105; 775]%N
  else if (u =? 8490)%N then [107%N]
  else if (u =? 8491)%N then [229%N]
  else [u].

Definition sampleLowerCase (t : text) : text := flat_map lowerUnit t.

End Utf16.

Import Utf16.

(** ** The path normaliser (index.ts, lines 36-38) *)

(** The class [[^a-zA-Z0-9\/]], on code units. *)
Definition notAlnumOrSlashU (u : N) : bool := negb (isAlnumU u || isSlashU u).

(** The class [[^a-zA-Z0-9]]. *)
Definition notAlnum (c : ascii) : bool := negb (isAlnum c).

(** [userPath.toLowerCase().replace(/[^a-zA-Z0-9\/]+/g, "/")], with the
    runtime's [toLowerCase]. *)
Definition normalizedPath (toLowerCase : text -> text) (userPath : text) : text :=
  replaceRunsU notAlnumOrSlashU [47%N] (toLowerCase userPath).

(** ** Node's [path] module (POSIX) *)

Module NodePath.

(** One step of [normalizeString]: [stack] holds the segments kept so
    far, the most recent first.  Empty segments and [.] are dropped; [..]
    removes the previous segment, or is kept when there is none to
    remove and the path is relative. *)
Definition pushSegment (allowAboveRoot : bool) (stack : list string)
           (seg : string) : list string :=
  if String.eqb seg "" || String.eqb seg "." then stack
  else if String.eqb seg ".." then
    match stack with
    | top :: rest =>
        if String.eqb top ".."
        then (if allowAboveRoot then ".." :: stack else stack)
        else rest
    | [] => if allowAboveRoot then [".."] else []
    end
  else seg :: stack.

Definition normalizeSegments (allowAboveRoot : bool) (segs : list string)
  : list string :=
  rev (fold_left (pushSegment allowAboveRoot) segs []).

Definition isAbsolute (p : string) : bool := startsWith p "/".

Definition trailingSeparator (p : string) : bool :=
  match lastChar p with
  | Some c => isSlash c
  | None => false
  end.

(** [path.normalize(p)] *)
Definition normalize (p : string) : string :=
  if String.eqb p "" then "."
  else
    let body := join "/" (normalizeSegments (negb (isAbsolute p)) (splitOn "/" p)) in
    if String.eqb body ""
    then (if isAbsolute p then "/"
          else if trailingSeparator p then "./" else ".")
    else (if isAbsolute p then "/" else "") ++ body
         ++ (if trailingSeparator p then "/" else "").

(** [path.join(...args)]: the non-empty arguments, joined by [/] and
    normalized. *)
Definition pathJoin (args : list string) : string :=
  match List.filter nonEmpty args with
  | [] => "."
  | parts => normalize (join "/" parts)
  end.

(** The last component of a path, trailing separators ignored. *)
Definition lastComponent (p : string) : string :=
  match List.filter nonEmpty (rev (splitOn "/" p)) with
  | [] => ""
  | b :: _ => b
  end.

(** Splits at the last [.]: the text before it, and the text from it
    on. *)
Fixpoint splitLastDot (s : string) : option (string * string) :=
  match s with
  | EmptyString => None
  | String c t =>
      match splitLastDot t with
      | Some (pre, ext) => Some (String c pre, ext)
      | None => if isDot c then Some (EmptyString, String c t) else None
      end
  end.

(** [path.extname(p)]: from the last [.] of the last component to its
    end; empty when there is no [.], when the component starts with its
    only [.], or when the component is [..]. *)
Definition extname (p : string) : string :=
  let b := lastComponent p in
  match splitLastDot b with
  | Some (pre, ext) =>
      if String.eqb pre "" || String.eqb b ".." then "" else ext
  | None => ""
  end.

(** [path.basename(p, suffix)] *)
Definition basename (p suffix : string) : string :=
  if nonEmpty suffix && String.eqb suffix p then ""
  else
    let b := lastComponent p in
    if nonEmpty suffix && endsWith b suffix && negb (String.eqb b suffix)
    then dropEnd (String.length suffix) b
    else b.

End NodePath.

(** ** JavaScript values met in requests *)

(** What [req.query.x] and [req.body.x] can hold. *)
Inductive Value : Type :=
| VUndefined
| VString (s : string)
| VArray (items : list Value)
| VObject.

(** [!!v] *)
Definition truthy (v : Value) : bool :=
  match v with
  | VUndefined => false
  | VString s => nonEmpty s
  | VArray _ | VObject => true
  end.

(** [String(v)]; inside an array, [undefined] prints as the empty
    string. *)
Fixpoint toString (v : Value) : string :=
  match v with
  | VUndefined => "undefined"
  | VString s => s
  | VArray items =>
      join "," (List.map (fun i => match i with
                                   | VUndefined => ""
                                   | _ => toString i
                                   end) items)
  | VObject => "[object Object]"
  end.

(** What [req.body.path] and [req.query.path] can hold: nothing, a
    string, or an array or object. *)
Inductive PathValue : Type :=
| PathUndefined
| PathText (t : text)
| PathStructured.

(** [!!v] and [a || b] *)
Definition truthyPath (v : PathValue) : bool :=
  match v with
  | PathUndefined => false
  | PathText t => match t with [] => false | _ => true end
  | PathStructured => true
  end.

Definition orPath (a b : PathValue) : PathValue := if truthyPath a then a else b.

(** An [Error] object, as far as the program reads it. *)
Record JsError : Type := mkError { message : string }.

(** ** The file system *)

Inductive Syscall : Type :=
| SysMkdir (p : string)
| SysWrite (p : string)
| SysUnlink (p : string).

(** What the program runs in.  Regular files with their contents,
    directories, and the calls the program has issued so far, oldest
    first; the paths at which the file system refuses to create
    anything (permissions, quota, no space left, a path that is too
    long); and the case mapping of the runtime,
    [String.prototype.toLowerCase]. *)
Record World : Type := mkWorld {
  files : gmap string string;
  dirs : gset string;
  trace : list Syscall;
  refuses : gset string;
  lowerCase : text -> text
}.

Definition setFiles (f : gmap string string) (w : World) : World :=
  mkWorld f (dirs w) (trace w) (refuses w) (lowerCase w).

Definition setDirs (d : gset string) (w : World) : World :=
  mkWorld (files w) d (trace w) (refuses w) (lowerCase w).

Definition logCall (c : Syscall) (w : World) : World :=
  mkWorld (files w) (dirs w) (trace w ++ [c]) (refuses w) (lowerCase w).

Definition isFile (p : string) (w : World) : bool :=
  bool_decide (is_Some (files w !! p)).

Definition isDir (p : string) (w : World) : bool :=
  bool_decide (p ∈ dirs w).

(** The message of the error a failed system call raises:
    [CODE: description, syscall 'path']. *)
Definition uvMessage (code description syscall p : string) : string :=
  code ++ ": " ++ description ++ ", " ++ syscall ++ " '" ++ p ++ "'".

(** [fs.promises.unlink(p)]: removes a regular file; [None] when the
    promise resolves, [Some err] when it rejects. *)
Definition unlink (p : string) (w : World) : World * option JsError :=
  let w1 := logCall (SysUnlink p) w in
  if isFile p w
  then (setFiles (delete p (files w1)) w1, None)
  else if isDir p w
  then (w1, Some (mkError (uvMessage "EISDIR" "illegal operation on a directory" "unlink" p)))
  else (w1, Some (mkError (uvMessage "ENOENT" "no such file or directory" "unlink" p))).

(** A directory and its ancestors, outermost first. *)
Definition dirChain (p : string) : list string :=
  let segs := List.filter nonEmpty (splitOn "/" p) in
  List.map (fun k => (if NodePath.isAbsolute p then "/" else "")
                     ++ join "/" (firstn k segs))
           (seq 1 (List.length segs)).

(** A name of more than [NAME_MAX] bytes. *)
Definition nameTooLong (p : string) : bool :=
  255 <? String.length (NodePath.lastComponent p).

(** Creating the directories of a chain, outermost first.  A directory
    that exists is passed; a regular file in the way, a name that is
    too long or a path the file system refuses stops the creation, and
    what was created before stays. *)
Fixpoint mkdirChain (p : string) (chain : list string) (w : World)
  : World * option JsError :=
  match chain with
  | [] => (w, None)
  | d :: rest =>
      if isDir d w then mkdirChain p rest w
      else if isFile d w
      then (w, Some (mkError (if String.eqb d p
                              then uvMessage "EEXIST" "file already exists" "mkdir" p
                              else uvMessage "ENOTDIR" "not a directory" "mkdir" p)))
      else if nameTooLong d
      then (w, Some (mkError (uvMessage "ENAMETOOLONG" "name too long" "mkdir" p)))
      else if bool_decide (d ∈ refuses w)
      then (w, Some (mkError (uvMessage "EACCES" "permission denied" "mkdir" p)))
      else mkdirChain p rest (setDirs ({[d]} ∪ dirs w) w)
  end.

(** [fs.mkdir(p, {recursive: true}, cb)]: creates [p] and its missing
    ancestors; [None] when it succeeds, [Some err] when it fails. *)
Definition mkdirRecursive (p : string) (w : World) : World * option JsError :=
  mkdirChain p (dirChain p) (logCall (SysMkdir p) w).

(** Writing a file through a write stream opened on [p]. *)
Definition writeFile (p content : string) (w : World) : World * option JsError :=
  let w1 := logCall (SysWrite p) w in
  if isDir p w
  then (w1, Some (mkError (uvMessage "EISDIR" "illegal operation on a directory" "open" p)))
  else if nameTooLong p
  then (w1, Some (mkError (uvMessage "ENAMETOOLONG" "name too long" "open" p)))
  else if bool_decide (p ∈ refuses w)
  then (w1, Some (mkError (uvMessage "EACCES" "permission denied" "open" p)))
  else (setFiles (<[p := content]> (files w1)) w1, None).

(** ** Requests, responses and middleware *)

Inductive Json : Type :=
| JString (s : string)
| JArray (items : list Json)
| JObject (fields : list (string * Json)).

(** [res.status(status).json(body)] *)
Record Response : Type := mkResponse { status : nat; body : Json }.

(** One part of a multipart body that carries a file; [arrival] is what
    [Date.now()] returns when the storage names the file. *)
Record FilePart : Type := mkPart {
  partName : string;
  partContent : string;
  arrival : N
}.

(** A part of a multipart body, as far as the program is concerned: a
    text field named [path], or a file under the field [files].  (A
    body with a file under another field is turned down by multer
    itself.) *)
Inductive Part : Type :=
| PathField (value : text)
| FileData (f : FilePart).

(** A file as multer records it. *)
Record MulterFile : Type := mkFile {
  originalname : string;
  destinationDir : string;
  storedName : string;
  storedPath : string
}.

(** [req.files] *)
Inductive ReqFiles : Type :=
| FilesUndefined
| FilesArray (fs : list MulterFile)
| FilesByField (fs : list (string * list MulterFile)).

Record Request : Type := mkRequest {
  headerApiKey : option string;      (* req.headers["x-api-key"] *)
  queryPath : PathValue;             (* req.query.path *)
  queryFilenames : Value;            (* req.query.filenames *)
  multipart : option (list Part);    (* the parts of a multipart body *)
  reqFiles : ReqFiles                (* req.files *)
}.

Definition withFiles (fs : ReqFiles) (req : Request) : Request :=
  mkRequest (headerApiKey req) (queryPath req)
            (queryFilenames req) (multipart req) fs.

(** What a middleware does with a request. *)
Inductive Step : Type :=
| Next (req : Request)          (* next() *)
| Send (resp : Response)        (* res.status(..).json(..) *)
| NextError (err : JsError)     (* next(err) *)
| Crash (err : JsError).        (* an exception that nothing catches *)

Definition Middleware : Type := Request -> World -> World * Step.

(** How a request ends: with a response of the program; in the
    framework's own error handler, which answers with its error page;
    with the end of the process, and no answer; or unhandled. *)
Inductive Outcome : Type :=
| Replied (resp : Response)
| Errored (err : JsError)
| Crashed (err : JsError)
| NotHandled.

(** Express runs the handlers of a route in order; a handler that does
    not call [next()] ends the chain. *)
Fixpoint runChain (chain : list Middleware) (req : Request) (w : World)
  : World * Outcome :=
  match chain with
  | [] => (w, NotHandled)
  | m :: rest =>
      match m req w with
      | (w', Next req') => runChain rest req' w'
      | (w', Send resp) => (w', Replied resp)
      | (w', NextError err) => (w', Errored err)
      | (w', Crash err) => (w', Crashed err)
      end
  end.

(** Process-wide settings: [__dirname] and [process.env.API_KEY]. *)
Record Config : Type := mkConfig {
  dirname : string;
  API_KEY : option string
}.

(** ** The program (index.ts) *)

Section Program.

Variable cfg : Config.

(** [{ message: msg }] *)
Definition jsonMessage (msg : string) : Json :=
  JObject [("message", JString msg)].

(** [!apiKey] and [apiKey !== process.env.API_KEY] on a header that is a
    string or [undefined]. *)
Definition headerTruthy (h : option string) : bool :=
  match h with
  | Some s => nonEmpty s
  | None => false
  end.

(** [a !== b] is the negation of this. *)
Definition strictEq (a b : option string) : bool :=
  match a, b with
  | Some x, Some y => String.eqb x y
  | None, None => true
  | _, _ => false
  end.

(** Lines 18-24. *)
Definition validateApiKey : Middleware := fun req w =>
  let apiKey := headerApiKey req in
  if negb (headerTruthy apiKey) || negb (strictEq apiKey (API_KEY cfg))
  then (w, Send (mkResponse 403 (jsonMessage "Forbidden: Invalid API Key")))
  else (w, Next req).

(** The directory served under [/uploads] (line 27), under which the
    storage puts every file, and its parent, the [public] directory. *)
Definition uploadRoot : string := NodePath.pathJoin [dirname cfg; "../public/uploads"].
Definition publicRoot : string := NodePath.pathJoin [dirname cfg; "../public"].

(** Line 33: [req.body.path || req.query.path || ""], with
    [bodyPath] what [req.body.path] holds when the line runs. *)
Definition userPathOf (bodyPath : PathValue) (req : Request) : PathValue :=
  orPath (orPath bodyPath (queryPath req)) (PathText []).

(** Lines 36-45: [uploadPath] for a [userPath] that is a string.  The
    normalized path holds ASCII only, so it is a path string as it
    is. *)
Definition uploadPathOf (toLowerCase : text -> text) (userPath : text) : string :=
  NodePath.pathJoin [dirname cfg; "../public/uploads";
                     pathText (normalizedPath toLowerCase userPath)].

(** How a call of [storage.destination] ends: with an exception, or
    with its callback called, on an error or on a directory. *)
Inductive Called : Type :=
| Threw (err : JsError)
| Callback (result : JsError + string).

(** Lines 31-54: [storage.destination].  A [userPath] that is not a
    string has no [toLowerCase]: line 37 throws.  Otherwise the
    directory is joined and created; a failed [mkdir] becomes the error
    [Failed to create directory.]. *)
Definition destination (bodyPath : PathValue) (req : Request) (w : World)
  : World * Called :=
  match userPathOf bodyPath req with
  | PathText userPath =>
      let uploadPath := uploadPathOf (lowerCase w) userPath in
      match mkdirRecursive uploadPath w with
      | (w', Some _) => (w', Callback (inl (mkError "Failed to create directory.")))
      | (w', None) => (w', Callback (inr uploadPath))
      end
  | _ => (w, Threw (mkError "userPath.toLowerCase is not a function"))
  end.

(** Lines 55-62: [storage.filename], with [now] the value of
    [Date.now()]. *)
Definition filename (now : N) (originalname : string) : string :=
  let extension := NodePath.extname originalname in
  let originalName :=
    replaceRuns notAlnum "-" (NodePath.basename originalname extension) in
  decimal now ++ "-" ++ originalName ++ extension.

(** multer removes what it has stored when an upload is aborted. *)
Fixpoint removeUploaded (stored : list MulterFile) (w : World) : World :=
  match stored with
  | [] => w
  | f :: rest => removeUploaded rest (fst (unlink (storedPath f) w))
  end.

(** multer on a text field named [path]: the first one sets
    [req.body.path], a further one turns it into an array. *)
Definition appendField (value : text) (bodyPath : PathValue) : PathValue :=
  match bodyPath with
  | PathUndefined => PathText value
  | _ => PathStructured
  end.

(** A file whose directory has been asked for, with the answer. *)
Definition Pending : Type := FilePart * (JsError + string).

(** The parts of the body in order.  A field is added to [req.body]; a
    file without a name is skipped; for any other file the disk storage
    calls [destination] at once, with [req.body] as it stands.  An
    exception of [destination] is caught by nobody. *)
Fixpoint arrive (req : Request) (parts : list Part) (bodyPath : PathValue)
         (pending : list Pending) (w : World)
  : World * (JsError + list Pending) :=
  match parts with
  | [] => (w, inr pending)
  | PathField value :: rest =>
      arrive req rest (appendField value bodyPath) pending w
  | FileData f :: rest =>
      if nonEmpty (partName f)
      then match destination bodyPath req w with
           | (w1, Threw err) => (w1, inl err)
           | (w1, Callback r) => arrive req rest bodyPath (pending ++ [(f, r)]) w1
           end
      else arrive req rest bodyPath pending w
  end.

(** The errors that [destination] called back with, in order. *)
Definition destinationErrors (pending : list Pending) : list JsError :=
  omap (fun fr => match snd fr with
                  | inl err => Some err
                  | inr _ => None
                  end) pending.

(** The callbacks of [destination] that brought a directory: the disk
    storage asks [filename] and writes the bytes to
    [path.join(destination, filename)].  A failed write does not stop
    the others.  Returns the files stored and the errors. *)
Fixpoint writeAll (pending : list Pending) (stored : list MulterFile)
         (errors : list JsError) (w : World)
  : World * (list MulterFile * list JsError) :=
  match pending with
  | [] => (w, (stored, errors))
  | (f, inl _) :: rest => writeAll rest stored errors w
  | (f, inr dir) :: rest =>
      let name := filename (arrival f) (partName f) in
      let finalPath := NodePath.pathJoin [dir; name] in
      match writeFile finalPath (partContent f) w with
      | (w1, Some err) => writeAll rest stored (errors ++ [err]) w1
      | (w1, None) =>
          writeAll rest (stored ++ [mkFile (partName f) dir name finalPath])
                   errors w1
      end
  end.

(** Line 72: [upload.array("files")].  A request that is not multipart
    passes through with [req.files] undefined.  Of a multipart request
    the parts are taken in; then the files are written.  With no error
    [req.files] is the array of the files stored, empty when the body
    carries none; with an error, multer waits for the other files,
    removes what was stored and passes the first error on. *)
Definition uploadArray : Middleware := fun req w =>
  match multipart req with
  | None => (w, Next req)
  | Some parts =>
      match arrive req parts PathUndefined [] w with
      | (w1, inl err) => (w1, Crash err)
      | (w1, inr pending) =>
          match writeAll pending [] [] w1 with
          | (w2, (stored, writeErrors)) =>
              match (destinationErrors pending ++ writeErrors)%list with
              | [] => (w2, Next (withFiles (FilesArray stored) req))
              | err :: _ => (removeUploaded stored w2, NextError err)
              end
          end
      end
  end.

(** [!req.files] and [Array.isArray(req.files)] *)
Definition filesFalsy (f : ReqFiles) : bool :=
  match f with
  | FilesUndefined => true
  | _ => false
  end.

Definition filesIsArray (f : ReqFiles) : bool :=
  match f with
  | FilesArray _ => true
  | _ => false
  end.

Definition filesItems (f : ReqFiles) : list MulterFile :=
  match f with
  | FilesArray fs => fs
  | _ => []
  end.

Definition fileRecord (file : MulterFile) : Json :=
  JObject [("originalname", JString (originalname file));
           ("filename", JString (storedName file));
           ("path", JString (replaceFirst publicRoot "" (storedPath file)))].

(** Lines 73-86. *)
Definition uploadHandler : Middleware := fun req w =>
  if filesFalsy (reqFiles req) || negb (filesIsArray (reqFiles req))
  then (w, Send (mkResponse 400 (jsonMessage "No files were uploaded.")))
  else (w, Send (mkResponse 200
                   (JObject [("message", JString "Files uploaded successfully.");
                             ("files", JArray (List.map fileRecord
                                                 (filesItems (reqFiles req))))]))).

(** Lines 100-102. *)
Definition filesArrayOf (filenames : Value) : list Value :=
  match filenames with
  | VArray items => items
  | _ => List.map VString (splitOn "," (toString filenames))
  end.

(** Lines 105-113. *)
Definition candidate (filename : Value) : string :=
  NodePath.pathJoin [dirname cfg; "../public"; toString filename].

(** Lines 116-123: every [unlink] is issued and its rejection caught;
    the results keep the order of the paths. *)
Fixpoint unlinkAll (paths : list string) (w : World)
  : World * list (option JsError) :=
  match paths with
  | [] => (w, [])
  | p :: rest =>
      let (w1, r) := unlink p w in
      let (w2, rs) := unlinkAll rest w1 in
      (w2, r :: rs)
  end.

(** Line 126: [results.filter((result) => result instanceof Error)]. *)
Definition errorsOf (results : list (option JsError)) : list JsError :=
  omap id results.

(** Lines 124-138. *)
Definition deleteReport (results : list (option JsError)) : Response :=
  let errors := errorsOf results in
  if 0 <? List.length errors
  then mkResponse 500
         (JObject [("message", JString "Error deleting files.");
                   ("errors", JArray (List.map (fun error => JString (message error))
                                               errors))])
  else mkResponse 200 (jsonMessage "Files deleted successfully.").

(** Lines 90-145.  The closing [.catch] (lines 139-144) only runs when
    sending the answer itself throws, which does not happen here. *)
Definition deleteHandler : Middleware := fun req w =>
  let filenames := queryFilenames req in
  if negb (truthy filenames)
  then (w, Send (mkResponse 400 (jsonMessage "Filenames are required.")))
  else
    let filesArray := filesArrayOf filenames in
    let files := List.map candidate filesArray in
    let (w', results) := unlinkAll files w in
    (w', Send (deleteReport results)).

(** Lines 69-87 and line 90: the two protected routes. *)
Definition uploadRoute : list Middleware :=
  [validateApiKey; uploadArray; uploadHandler].

Definition deleteRoute : list Middleware :=
  [validateApiKey; deleteHandler].

Definition postUpload (req : Request) (w : World) : World * Outcome :=
  runChain uploadRoute req w.

Definition deleteDelete (req : Request) (w : World) : World * Outcome :=
  runChain deleteRoute req w.

End Program.

(** ** Vocabulary of the statements *)

(** [[a-z0-9/]]: what a normalized path is made of. *)
Definition isPathChar (c : ascii) : bool := isLowerAlnum c || isSlash c.

(** Decides a statement about one character by running through the
    256 code units. *)
Ltac by_cases_on_char c :=
  destruct c as [[] [] [] [] [] [] [] []]; vm_compute; try reflexivity;
  try discriminate; auto.

(** [s] matches [^\d+SUFFIX$], for a literal [SUFFIX]. *)
Definition digitsThen (suffix s : string) : Prop :=
  exists d : string,
    d <> "" /\ Forall (fun c => isDigit c = true) (chars d) /\ s = d ++ suffix.

(** The request carries the configured key: a non-empty [x-api-key]
    header equal to [process.env.API_KEY]. *)
Definition keyAccepted (cfg : Config) (req : Request) : Prop :=
  exists k : string, k <> "" /\ headerApiKey req = Some k /\ API_KEY cfg = Some k.

(** The answer of [validateApiKey] to a request it rejects. *)
Definition forbidden : Response :=
  mkResponse 403 (jsonMessage "Forbidden: Invalid API Key").

(** Sample data for the closed examples: the program runs from
    [/srv/app/dist], the key is [s3cret], and [public] holds one file,
    [a.txt]. *)
Definition sampleConfig : Config := mkConfig "/srv/app/dist" (Some "s3cret").

(** [public] with the file [a.txt] and the empty directory [uploads]. *)
Definition sampleWorld : World :=
  mkWorld {[ "/srv/app/public/a.txt" := "A" ]}
          {[ "/srv/app/public"; "/srv/app/public/uploads" ]}
          [] ∅ sampleLowerCase.

(** A query parameter [path] as [req.query.path] holds it. *)
Definition pathValue (v : Value) : PathValue :=
  match v with
  | VUndefined => PathUndefined
  | VString s => PathText (unitsOf s)
  | _ => PathStructured
  end.

(** A [DELETE /delete?filenames=..] request; a [POST /upload?path=..]
    request whose body, when multipart, carries the given files; and a
    [POST /upload] request with the given parts. *)
Definition deleteRequest (key : option string) (filenames : Value) : Request :=
  mkRequest key PathUndefined filenames None FilesUndefined.

Definition uploadRequest (key : option string) (path : Value)
           (parts : option (list FilePart)) : Request :=
  mkRequest key (pathValue path) VUndefined
            (option_map (List.map FileData) parts) FilesUndefined.

Definition formRequest (key : option string) (parts : list Part) : Request :=
  mkRequest key PathUndefined VUndefined (Some parts) FilesUndefined.

(** What the program relies on of [String.prototype.toLowerCase]: the
    result holds no [A-Z], and a string of ASCII is mapped unit by
    unit. *)
Definition noUpperCase (toLowerCase : text -> text) : Prop :=
  forall t : text, Forall (fun u => isUpperU u = false) (toLowerCase t).

Definition asciiCase (toLowerCase : text -> text) : Prop :=
  forall t : text, Forall (fun u => (u < 128)%N) t ->
                   toLowerCase t = List.map lowerAsciiUnit t.

(** [[a-z0-9/]] on code units. *)
Definition isPathUnit (u : N) : bool := isLowerAlnumU u || isSlashU u.

(** The messages of the deletions that failed, in request order. *)
Definition failureMessages (results : list (option JsError)) : list string :=
  flat_map (fun r => match r with
                     | Some e => [message e]
                     | None => []
                     end) results.

(** The paths a delete request asks to remove. *)
Definition candidatesOf (cfg : Config) (req : Request) : list string :=
  List.map (candidate cfg) (filesArrayOf (queryFilenames req)).


(** [p] is [root] or lies below it. *)
Definition isWithin (root p : string) : bool :=
  String.eqb p root || startsWith p (root ++ "/").

(** A path segment made of lower-case letters and digits only. *)
Definition plainSegment (seg : string) : Prop :=
  Forall (fun c => isLowerAlnum c = true) (chars seg).

(** A path segment made of letters and digits only. *)
Definition alnumSegment (seg : string) : Prop :=
  Forall (fun c => isAlnum c = true) (chars seg).

(** Each segment behind a separator. *)
Fixpoint slashed (segs : list string) : string :=
  match segs with
  | [] => ""
  | s :: rest => "/" ++ s ++ slashed rest
  end.

(** The joined, not yet normalized, arguments of [path.join] for a
    directory below [__dirname/..]. *)
Definition joinedUnder (d tail : string) : string :=
  if nonEmpty d then d ++ String "/" tail else tail.

(** The request with [req.query.filenames] replaced. *)
Definition withFilenames (v : Value) (req : Request) : Request :=
  mkRequest (headerApiKey req) (queryPath req) v
            (multipart req) (reqFiles req).

(** A string without the character [c]. *)
Definition freeOf (c : ascii) (s : string) : Prop := ~ In c (chars s).

(** The base of a stored name: line 57-59 on the original name. *)
Definition sanitizedBase (originalname : string) : string :=
  replaceRuns notAlnum "-"
              (NodePath.basename originalname (NodePath.extname originalname)).

(** [[a-zA-Z0-9-]] *)
Definition isAlnumOrDash (c : ascii) : bool := isAlnum c || (code c =? 45).

(** A path segment that names an entry of a directory: not empty, not
    [.] or [..], and without separator. *)
Definition properSegment (seg : string) : Prop :=
  seg <> "" /\ seg <> "." /\ seg <> ".." /\ freeOf "/" seg.

(** A segment that [path.normalize] either drops (the empty one) or
    keeps as it is. *)
Definition quietSegment (seg : string) : Prop := seg = "" \/ properSegment seg.

(** What a stack of [normalizeString] holds: segments that are not
    empty, not [.], and without separator. *)
Definition keptSegment (seg : string) : Prop :=
  seg <> "" /\ seg <> "." /\ freeOf "/" seg.

(** A stack that [normalizeString] rebuilds from its own segments. *)
Definition goodStack (allow : bool) (stack : list string) : Prop :=
  fold_left (NodePath.pushSegment allow) (rev stack) [] = stack
  /\ Forall keptSegment stack.

(** The directories a user path names below the upload root. *)
Definition resolvedSegments (toLowerCase : text -> text) (userPath : text)
  : list string :=
  List.filter nonEmpty
              (splitOn "/" (pathText (normalizedPath toLowerCase userPath))).

(** The path a system call works on. *)
Definition syscallPath (c : Syscall) : string :=
  match c with
  | SysMkdir p | SysWrite p | SysUnlink p => p
  end.

(** The record multer keeps for a part stored in [dir]. *)
Definition storedFile (dir : string) (part : FilePart) : MulterFile :=
  mkFile (partName part) dir
         (filename (arrival part) (partName part))
         (NodePath.pathJoin [dir; filename (arrival part) (partName part)]).

(** Every call of the list works inside the upload root. *)
Definition confined (cfg : Config) (calls : list Syscall) : Prop :=
  Forall (fun c => isWithin (uploadRoot cfg) (syscallPath c) = true) calls.

(** For each named file of a body, the user path in effect when the
    file arrives: [req.body.path] as the fields before the file have
    made it, or else the path of the query. *)
Fixpoint pathsInEffect (req : Request) (parts : list Part) (bodyPath : PathValue)
  : list (FilePart * PathValue) :=
  match parts with
  | [] => []
  | PathField value :: rest => pathsInEffect req rest (appendField value bodyPath)
  | FileData f :: rest =>
      if nonEmpty (partName f)
      then (f, userPathOf bodyPath req) :: pathsInEffect req rest bodyPath
      else pathsInEffect req rest bodyPath
  end.

(** What [destination] calls back with for the user path [v]: the
    directory of [v], or the error of line 50. *)
Definition answered (cfg : Config) (toLowerCase : text -> text) (v : PathValue)
           (r : JsError + string) : Prop :=
  exists u : text,
    v = PathText u
    /\ (r = inr (uploadPathOf cfg toLowerCase u)
        \/ r = inl (mkError "Failed to create directory.")).

(** The records of the files whose directory was handed on. *)
Definition recordsOf (pending : list Pending) : list MulterFile :=
  flat_map (fun fr => match snd fr with
                      | inr dir => [storedFile dir (fst fr)]
                      | inl _ => []
                      end) pending.

(** An error of opening a file for writing. *)
Definition openError (err : JsError) : Prop :=
  exists code desc p : string, message err = uvMessage code desc "open" p.




(** The sample world with a regular file [report] in the upload root. *)
Definition blockedWorld : World :=
  mkWorld {[ "/srv/app/public/uploads/report" := "R" ]}
          {[ "/srv/app/public"; "/srv/app/public/uploads" ]}
          [] ∅ sampleLowerCase.

(** The [path] of the record for a part uploaded to [userPath]. *)
Definition uploadedPath (toLowerCase : text -> text) (userPath : text)
           (part : FilePart) : string :=
  "/uploads" ++ slashed (resolvedSegments toLowerCase userPath) ++ "/"
  ++ filename (arrival part) (partName part).

(** The entry of the [files] array for a part uploaded to [userPath]. *)
Definition uploadedRecord (toLowerCase : text -> text) (userPath : text)
           (part : FilePart) : Json :=
  JObject [("originalname", JString (partName part));
           ("filename", JString (filename (arrival part) (partName part)));
           ("path", JString (uploadedPath toLowerCase userPath part))].

(** * Properties *)

(** ** The model on the examples of the documentation *)

Example normalizedPath_doc :
  normalizedPath sampleLowerCase (unitsOf "File/Dokumentasi")
  = unitsOf "file/dokumentasi".
Proof. reflexivity. Qed.

Example normalizedPath_traversal :
  normalizedPath sampleLowerCase (unitsOf "../../etc/Passwd")
  = unitsOf "////etc/passwd".
Proof. reflexivity. Qed.

Example normalizedPath_punctuation :
  normalizedPath sampleLowerCase (unitsOf "a  b!!c") = unitsOf "a/b/c".
Proof. reflexivity. Qed.

Example normalizedPath_empty :
  normalizedPath sampleLowerCase [] = []
  /\ normalizedPath sampleLowerCase (unitsOf "!!!") = unitsOf "/".
Proof. split; reflexivity. Qed.

(** Beyond ASCII: U+0130 is lower-cased to [i] and U+0307, so its
    normalized path is [i/]; the Kelvin sign U+212A becomes [k]; a
    character outside the basic plane is two code units and becomes one
    [/]. *)
Example normalizedPath_beyond_ascii :
  normalizedPath sampleLowerCase [304%N] = unitsOf "i/"
  /\ normalizedPath sampleLowerCase [8490%N] = unitsOf "k"
  /\ normalizedPath sampleLowerCase [97; 55357; 56832; 98]%N = unitsOf "a/b".
Proof. repeat split; reflexivity. Qed.

(** Node's documentation of [path.join], [path.normalize],
    [path.extname] and [path.basename]. *)
Example pathJoin_doc :
  NodePath.pathJoin ["/foo"; "bar"; "baz/asdf"; "quux"; ".."] = "/foo/bar/baz/asdf".
Proof. reflexivity. Qed.

Example normalize_doc :
  NodePath.normalize "/foo/bar//baz/asdf/quux/.." = "/foo/bar/baz/asdf"
  /\ NodePath.normalize "" = "."
  /\ NodePath.normalize "../../a/./b/../c/" = "../../a/c/"
  /\ NodePath.normalize "/../.." = "/".
Proof. repeat split; reflexivity. Qed.

Example extname_doc :
  List.map NodePath.extname
           ["index.html"; "index.coffee.md"; "index."; "index"; ".index"; ".index.md"]
  = [".html"; ".md"; "."; ""; ""; ".md"].
Proof. reflexivity. Qed.

Example basename_doc :
  NodePath.basename "/foo/bar/baz/asdf/quux.html" ".html" = "quux"
  /\ NodePath.basename "/foo/bar/baz/asdf/quux.html" "" = "quux.html"
  /\ NodePath.basename "My File.PNG" (NodePath.extname "My File.PNG") = "My File".
Proof. repeat split; reflexivity. Qed.

(** One file uploaded to the logical path [File/Dok umentasi]. *)
Example upload_one_file :
  let out := postUpload sampleConfig
               (uploadRequest (Some "s3cret") (VString "File/Dok umentasi")
                              (Some [mkPart "My File.PNG" "bytes" 1700000000000]))
               sampleWorld in
  trace (fst out)
  = [SysMkdir "/srv/app/public/uploads/file/dok/umentasi";
     SysWrite "/srv/app/public/uploads/file/dok/umentasi/1700000000000-My-File.PNG"]
  /\ snd out
     = Replied (mkResponse 200
         (JObject [("message", JString "Files uploaded successfully.");
                   ("files",
                    JArray [JObject
                              [("originalname", JString "My File.PNG");
                               ("filename", JString "1700000000000-My-File.PNG");
                               ("path", JString "/uploads/file/dok/umentasi/1700000000000-My-File.PNG")]])])).
Proof. vm_compute. split; reflexivity. Qed.

(** ** Characters and the normaliser *)

Lemma chars_cons (c : ascii) (s : string) : chars (String c s) = c :: chars s.
Proof. reflexivity. Qed.

Lemma chars_app (s t : string) : chars (s ++ t) = (chars s ++ chars t)%list.
Proof.
  induction s as [|c s IH]; [reflexivity|].
  change (chars (String c (s ++ t)) = c :: (chars s ++ chars t)%list).
  rewrite chars_cons, IH. reflexivity.
Qed.

(** What [replace] leaves: characters outside the class, taken from the
    input, and the characters of the replacement. *)
Lemma replaceRunsFrom_chars (cls : ascii -> bool) (rep : string) (P : ascii -> Prop) :
  Forall P (chars rep) ->
  forall (s : string) (inRun : bool),
    Forall (fun c => cls c = false -> P c) (chars s) ->
    Forall P (chars (replaceRunsFrom cls rep inRun s)).
Proof.
  intros Hrep s. induction s as [|c s IH]; intros inRun Hs; simpl.
  - constructor.
  - rewrite chars_cons in Hs. inversion Hs as [|? ? Hc Hs']; subst.
    destruct (cls c) eqn:E.
    + destruct inRun; [apply IH; assumption|].
      rewrite chars_app. apply Forall_app. split; [assumption | apply IH; assumption].
    + rewrite chars_cons. constructor; [apply Hc; reflexivity | apply IH; assumption].
Qed.

Lemma startsWith_chars (hay needle : string) :
  startsWith hay needle = true -> forall c, In c (chars needle) -> In c (chars hay).
Proof.
  revert hay.
  induction needle as [|a needle IH]; intros hay H c Hc; [destruct Hc|].
  destruct hay as [|b hay]; cbn [startsWith] in H; [discriminate|].
  apply andb_true_iff in H. destruct H as [Hab H].
  apply Ascii.eqb_eq in Hab. subst b.
  rewrite chars_cons in *. destruct Hc as [->|Hc]; [left; reflexivity|].
  right. eapply IH; eassumption.
Qed.


(** *** Code units *)

Lemma replaceRunsFromU_units (cls : N -> bool) (rep : text) (P : N -> Prop) :
  Forall P rep ->
  forall (t : text) (inRun : bool),
    Forall (fun u => cls u = false -> P u) t ->
    Forall P (replaceRunsFromU cls rep inRun t).
Proof.
  intros Hrep t. induction t as [|u t IH]; intros inRun Ht; simpl.
  - constructor.
  - inversion Ht as [|? ? Hu Ht']; subst.
    destruct (cls u) eqn:E.
    + destruct inRun; [apply IH; assumption|].
      apply Forall_app. split; [assumption | apply IH; assumption].
    + constructor; [apply Hu; reflexivity | apply IH; assumption].
Qed.

Lemma replaceRunsFromU_none (cls : N -> bool) (rep t : text) (inRun : bool) :
  Forall (fun u => cls u = false) t -> replaceRunsFromU cls rep inRun t = t.
Proof.
  revert inRun. induction t as [|u t IH]; simpl; intros inRun H; [reflexivity|].
  inversion H as [|? ? Hu Ht]; subst.
  rewrite Hu, IH by assumption. reflexivity.
Qed.

(** Whatever the case mapping does, what the replacement leaves is a
    letter, a digit or [/]. *)
Lemma normalizedPath_kept (toLowerCase : text -> text) (s : text) :
  Forall (fun u => isAlnumU u || isSlashU u = true) (normalizedPath toLowerCase s).
Proof.
  unfold normalizedPath, replaceRunsU. apply replaceRunsFromU_units.
  - repeat constructor.
  - apply List.Forall_forall. intros u _ H.
    unfold notAlnumOrSlashU in H. apply negb_false_iff in H. exact H.
Qed.

Lemma alnumU_cases (u : N) :
  isAlnumU u || isSlashU u = true -> isUpperU u = false -> isPathUnit u = true.
Proof.
  unfold isAlnumU, isPathUnit, isLowerAlnumU. intros H Hup. rewrite Hup in H.
  rewrite orb_false_r in H. exact H.
Qed.

Lemma normalizedPath_pathUnits (toLowerCase : text -> text) (s : text) :
  noUpperCase toLowerCase ->
  Forall (fun u => isPathUnit u = true) (normalizedPath toLowerCase s).
Proof.
  intros Hlaw. unfold normalizedPath, replaceRunsU. apply replaceRunsFromU_units.
  - repeat constructor.
  - eapply List.Forall_impl; [|apply (Hlaw s)].
    intros u Hup H. cbv beta in Hup. apply alnumU_cases; [|exact Hup].
    unfold notAlnumOrSlashU in H. apply negb_false_iff in H. exact H.
Qed.

Lemma pathUnit_cases (u : N) :
  isPathUnit u = true -> isLowerAlnumU u = true \/ u = 47%N.
Proof.
  unfold isPathUnit, isSlashU. intros H. apply orb_true_iff in H.
  destruct H as [H|H]; [left; exact H | right; apply N.eqb_eq, H].
Qed.

Lemma pathUnit_not_dot (u : N) : isPathUnit u = true -> u <> 46%N.
Proof. intros H ->. discriminate H. Qed.

Lemma pathUnit_kept (u : N) : isPathUnit u = true -> notAlnumOrSlashU u = false.
Proof.
  unfold isPathUnit, notAlnumOrSlashU, isLowerAlnumU, isAlnumU. intros H.
  apply negb_false_iff. apply orb_true_iff in H. destruct H as [H|H].
  - apply orb_true_iff in H. destruct H as [H|H]; rewrite H; [reflexivity|].
    rewrite !orb_true_r. reflexivity.
  - rewrite H. apply orb_true_r.
Qed.

Lemma pathUnit_ascii (u : N) : isPathUnit u = true -> (u < 128)%N.
Proof.
  unfold isPathUnit, isLowerAlnumU, isLowerU, isDigitU, isSlashU, betweenU.
  intros H. repeat (apply orb_true_iff in H; destruct H as [H|H]).
  - apply andb_true_iff in H. destruct H as [_ H]. apply N.leb_le in H. lia.
  - apply andb_true_iff in H. destruct H as [_ H]. apply N.leb_le in H. lia.
  - apply N.eqb_eq in H. lia.
Qed.

Lemma pathUnit_lower (u : N) : isPathUnit u = true -> lowerAsciiUnit u = u.
Proof.
  unfold isPathUnit, isLowerAlnumU, isLowerU, isDigitU, isSlashU, betweenU,
    lowerAsciiUnit, isUpperU, betweenU.
  intros H. destruct ((65 <=? u)%N && (u <=? 90)%N) eqn:E; [|reflexivity].
  exfalso. apply andb_true_iff in E. destruct E as [E1 E2].
  apply N.leb_le in E1, E2.
  repeat (apply orb_true_iff in H; destruct H as [H|H]).
  - apply andb_true_iff in H. destruct H as [H _]. apply N.leb_le in H. lia.
  - apply andb_true_iff in H. destruct H as [_ H]. apply N.leb_le in H. lia.
  - apply N.eqb_eq in H. lia.
Qed.

Lemma startsWithU_units (hay needle : text) :
  startsWithU hay needle = true -> forall u, In u needle -> In u hay.
Proof.
  revert hay.
  induction needle as [|a needle IH]; intros hay H u Hu; [destruct Hu|].
  destruct hay as [|b hay]; cbn [startsWithU] in H; [discriminate|].
  apply andb_true_iff in H. destruct H as [Hab H].
  apply N.eqb_eq in Hab. subst b.
  destruct Hu as [->|Hu]; [left; reflexivity|].
  right. eapply IH; eassumption.
Qed.

Lemma includesU_units (hay needle : text) :
  includesU hay needle = true -> forall u, In u needle -> In u hay.
Proof.
  induction hay as [|b hay IH]; cbn [includesU]; intros H u Hu.
  - rewrite orb_false_r in H. eapply startsWithU_units; eassumption.
  - apply orb_true_iff in H. destruct H as [H|H].
    + eapply startsWithU_units; eassumption.
    + right. eapply IH; eassumption.
Qed.

(** The case mapping of the examples has both properties. *)
Lemma lowerUnit_no_upper (u : N) :
  Forall (fun v => isUpperU v = false) (lowerUnit u).
Proof.
  unfold lowerUnit, isUpperU, betweenU.
  repeat match goal with
         | |- context [(?a <=? ?b)%N] => destruct (N.leb_spec a b)
         | |- context [(?a =? ?b)%N] => destruct (N.eqb_spec a b)
         end; cbn [andb orb negb];
    repeat constructor; cbv beta;
    repeat match goal with
           | |- context [(?a <=? ?b)%N] => destruct (N.leb_spec a b)
           end; cbn [andb]; try reflexivity; lia.
Qed.

Lemma sampleLowerCase_noUpperCase : noUpperCase sampleLowerCase.
Proof.
  intros t. unfold sampleLowerCase. induction t as [|u t IH]; cbn [flat_map].
  - constructor.
  - apply Forall_app. split; [apply lowerUnit_no_upper | exact IH].
Qed.

Lemma lowerUnit_ascii (u : N) : (u < 128)%N -> lowerUnit u = [lowerAsciiUnit u].
Proof.
  intros Hu. unfold lowerUnit, lowerAsciiUnit, isUpperU, betweenU.
  repeat match goal with
         | |- context [(?a <=? ?b)%N] => destruct (N.leb_spec a b)
         | |- context [(?a =? ?b)%N] => destruct (N.eqb_spec a b)
         end; cbn [andb orb negb]; try reflexivity; lia.
Qed.

Lemma sampleLowerCase_asciiCase : asciiCase sampleLowerCase.
Proof.
  intros t Ht. unfold sampleLowerCase.
  induction Ht as [|u t Hu Ht IH]; cbn [flat_map List.map]; [reflexivity|].
  rewrite (lowerUnit_ascii u Hu), IH. reflexivity.
Qed.

(** C1.  For every input string, the normalized path consists of
    lower-case ASCII letters, digits and [/] only; in particular it
    holds no [.] and does not include the token [..].  The case mapping
    is the runtime's; what is used of it is that its result holds no
    [A-Z]. *)
Theorem normalizedPath_safe (toLowerCase : text -> text) (s : text) :
  noUpperCase toLowerCase ->
  Forall (fun u => isLowerAlnumU u = true \/ u = 47%N) (normalizedPath toLowerCase s)
  /\ ~ In 46%N (normalizedPath toLowerCase s)
  /\ includesU (normalizedPath toLowerCase s) [46; 46]%N = false.
Proof.
  intros Hlaw.
  pose proof (normalizedPath_pathUnits toLowerCase s Hlaw) as H.
  assert (Hdot : ~ In 46%N (normalizedPath toLowerCase s)).
  { intros Hin. rewrite List.Forall_forall in H. apply H in Hin. discriminate Hin. }
  split; [|split].
  - eapply List.Forall_impl; [|exact H]. intros u Hu. apply pathUnit_cases, Hu.
  - exact Hdot.
  - destruct (includesU (normalizedPath toLowerCase s) [46; 46]%N) eqn:E; [|reflexivity].
    exfalso. apply Hdot. eapply includesU_units; [exact E|]. left. reflexivity.
Qed.

(** The path [../], U+0130, [/], U+212A, [..]. *)
Lemma normalizedPath_safe_witness :
  noUpperCase sampleLowerCase
  /\ normalizedPath sampleLowerCase [46; 46; 47; 304; 47; 8490; 46; 46]%N
     = unitsOf "//i//k/"
  /\ includesU (normalizedPath sampleLowerCase [46; 46; 47; 304; 47; 8490; 46; 46]%N)
               [46; 46]%N = false.
Proof.
  split; [exact sampleLowerCase_noUpperCase|]. split; [reflexivity|].
  apply (normalizedPath_safe sampleLowerCase [46; 46; 47; 304; 47; 8490; 46; 46]%N
                             sampleLowerCase_noUpperCase).
Defined.

(** C10.  Normalizing a normalized path changes nothing. *)
Theorem normalizedPath_idempotent (toLowerCase : text -> text) (s : text) :
  noUpperCase toLowerCase -> asciiCase toLowerCase ->
  normalizedPath toLowerCase (normalizedPath toLowerCase s)
  = normalizedPath toLowerCase s.
Proof.
  intros Hno Hascii.
  pose proof (normalizedPath_pathUnits toLowerCase s Hno) as H.
  assert (E : toLowerCase (normalizedPath toLowerCase s) = normalizedPath toLowerCase s).
  { rewrite Hascii.
    - induction H as [|u t Hu Ht IH]; cbn [List.map]; [reflexivity|].
      rewrite (pathUnit_lower u Hu), IH. reflexivity.
    - eapply List.Forall_impl; [|exact H]. intros u Hu. apply pathUnit_ascii, Hu. }
  unfold normalizedPath at 1. rewrite E.
  unfold replaceRunsU. apply replaceRunsFromU_none.
  eapply List.Forall_impl; [|exact H]. intros u Hu. apply pathUnit_kept, Hu.
Qed.

Lemma normalizedPath_idempotent_witness :
  noUpperCase sampleLowerCase /\ asciiCase sampleLowerCase
  /\ normalizedPath sampleLowerCase
       (normalizedPath sampleLowerCase [304; 65; 32; 46; 46; 47; 8490]%N)
     = normalizedPath sampleLowerCase [304; 65; 32; 46; 46; 47; 8490]%N.
Proof.
  split; [exact sampleLowerCase_noUpperCase|].
  split; [exact sampleLowerCase_asciiCase|].
  apply (normalizedPath_idempotent sampleLowerCase [304; 65; 32; 46; 46; 47; 8490]%N
                                   sampleLowerCase_noUpperCase
                                   sampleLowerCase_asciiCase).
Defined.

(** ** The stored file name *)

Lemma string_of_uint_digits (u : Decimal.uint) :
  Forall (fun c => isDigit c = true) (chars (NilEmpty.string_of_uint u)).
Proof.
  induction u; simpl; try (rewrite chars_cons); constructor;
    solve [reflexivity | assumption].
Qed.

Lemma decimal_digits (n : N) :
  decimal n <> "" /\ Forall (fun c => isDigit c = true) (chars (decimal n)).
Proof.
  unfold decimal, NilZero.string_of_uint.
  destruct (N.to_uint n) as [|u|u|u|u|u|u|u|u|u|u]; (split; [discriminate|]).
  1: repeat constructor.
  all: cbv iota; apply string_of_uint_digits.
Qed.

(** The name stored for [My File.PNG] at time [now]. *)
Example filename_My_File :
  filename 1700000000000 "My File.PNG" = "1700000000000-My-File.PNG".
Proof. reflexivity. Qed.

(** C6, as the claim states it, fails: the name stored for
    [My File.PNG] does not match [^\d+-my-file\.PNG$]. *)
Lemma filename_not_lowercased :
  ~ digitsThen "-my-file.PNG" (filename 1700000000000 "My File.PNG").
Proof.
  intros (d & _ & Hd & Heq). vm_compute in Heq.
  repeat (destruct d as [|? d]; simpl in Heq;
          [discriminate Heq | injection Heq as <- Heq; inversion Hd as [|? ? Hc Hd']; subst;
                              try discriminate Hc; clear Hd Hc; rename Hd' into Hd]).
Qed.

(** C6, amended.  Whatever the time, the name stored for [My File.PNG]
    matches [^\d+-My-File\.PNG$]: runs of non-alphanumerics of the base
    become one [-], the case of the base and the extension are kept. *)
Theorem filename_My_File_shape (now : N) :
  filename now "My File.PNG" = decimal now ++ "-My-File.PNG"
  /\ digitsThen "-My-File.PNG" (filename now "My File.PNG").
Proof.
  assert (E : filename now "My File.PNG" = decimal now ++ "-My-File.PNG") by reflexivity.
  split; [exact E|].
  exists (decimal now). destruct (decimal_digits now) as [Hne Hd].
  repeat split; assumption.
Qed.

(** ** The API-key check *)

Lemma strictEq_true (a b : option string) : strictEq a b = true <-> a = b.
Proof.
  destruct a as [x|], b as [y|]; simpl; try (split; [discriminate | congruence]).
  - rewrite String.eqb_eq. split; congruence.
  - split; reflexivity.
Qed.

Lemma nonEmpty_true (s : string) : nonEmpty s = true <-> s <> "".
Proof.
  unfold nonEmpty. rewrite negb_true_iff. split.
  - intros H ->. discriminate H.
  - intros H. apply String.eqb_neq, H.
Qed.

Lemma validateApiKey_accepts (cfg : Config) (req : Request) (w : World) :
  keyAccepted cfg req -> validateApiKey cfg req w = (w, Next req).
Proof.
  intros (k & Hk & Hh & He). unfold validateApiKey. rewrite Hh, He. simpl.
  apply nonEmpty_true in Hk. rewrite Hk, String.eqb_refl. reflexivity.
Qed.

Lemma validateApiKey_rejects (cfg : Config) (req : Request) (w : World) :
  headerApiKey req = None \/ headerApiKey req <> API_KEY cfg ->
  validateApiKey cfg req w = (w, Send forbidden).
Proof.
  intros H. unfold validateApiKey.
  destruct (strictEq (headerApiKey req) (API_KEY cfg)) eqn:E.
  - apply strictEq_true in E. destruct H as [H|H]; [|contradiction].
    rewrite H. reflexivity.
  - rewrite orb_true_r. reflexivity.
Qed.

(** C5.  When the [x-api-key] header is absent or differs from the
    configured key, [validateApiKey] answers 403 and ends the chain, whatever
    handlers follow it: both protected routes answer 403 and leave the
    world, the record of file-system calls included, as it was. *)
Theorem invalid_key_forbidden (cfg : Config) (req : Request) (w : World) :
  headerApiKey req = None \/ headerApiKey req <> API_KEY cfg ->
  (forall rest : list Middleware,
      runChain (validateApiKey cfg :: rest) req w = (w, Replied forbidden))
  /\ postUpload cfg req w = (w, Replied forbidden)
  /\ deleteDelete cfg req w = (w, Replied forbidden).
Proof.
  intros H.
  assert (G : forall rest, runChain (validateApiKey cfg :: rest) req w
                           = (w, Replied forbidden)).
  { intros rest. cbn [runChain]. rewrite (validateApiKey_rejects cfg req w H).
    reflexivity. }
  split; [exact G|]. split; apply G.
Qed.

Lemma invalid_key_forbidden_witness :
  (headerApiKey (deleteRequest (Some "guess") (VString "a.txt")) = None
   \/ headerApiKey (deleteRequest (Some "guess") (VString "a.txt"))
      <> API_KEY sampleConfig)
  /\ deleteDelete sampleConfig (deleteRequest (Some "guess") (VString "a.txt"))
                  sampleWorld
     = (sampleWorld, Replied forbidden).
Proof.
  split; [right; discriminate|].
  apply (invalid_key_forbidden sampleConfig
           (deleteRequest (Some "guess") (VString "a.txt")) sampleWorld).
  right; discriminate.
Defined.

(** ** Uploads without files *)

Lemma postUpload_accepted (cfg : Config) (req : Request) (w : World) :
  keyAccepted cfg req ->
  postUpload cfg req w = runChain [uploadArray cfg; uploadHandler cfg] req w.
Proof.
  intros H. unfold postUpload, uploadRoute. cbn [runChain].
  rewrite (validateApiKey_accepts cfg req w H). reflexivity.
Qed.

(** A multipart upload with the right key and no file part is answered
    200 with an empty [files] list, not 400; nothing is written. *)
Lemma postUpload_no_parts (cfg : Config) (req : Request) (w : World) :
  keyAccepted cfg req ->
  multipart req = Some [] ->
  postUpload cfg req w
  = (w, Replied (mkResponse 200
                   (JObject [("message", JString "Files uploaded successfully.");
                             ("files", JArray [])]))).
Proof.
  intros H Hm. rewrite (postUpload_accepted cfg req w H).
  cbn [runChain]. unfold uploadArray. rewrite Hm. reflexivity.
Qed.

(** Without a multipart body [req.files] stays undefined and the answer
    is 400. *)
Lemma postUpload_not_multipart (cfg : Config) (req : Request) (w : World) :
  keyAccepted cfg req ->
  multipart req = None ->
  reqFiles req = FilesUndefined ->
  postUpload cfg req w
  = (w, Replied (mkResponse 400 (jsonMessage "No files were uploaded."))).
Proof.
  intros H Hm Hf. rewrite (postUpload_accepted cfg req w H).
  cbn [runChain]. unfold uploadArray. rewrite Hm.
  unfold uploadHandler. rewrite Hf. reflexivity.
Qed.

(** C3 fails on the code: for a multipart request with the right key and
    zero files, [req.files] is the empty array, which is truthy, so the
    handler answers 200 with an empty list instead of 400.  (No
    file-system call is made.) *)
Theorem upload_zero_files_answers_200 :
  postUpload sampleConfig (uploadRequest (Some "s3cret") VUndefined (Some []))
             sampleWorld
  = (sampleWorld,
     Replied (mkResponse 200
                (JObject [("message", JString "Files uploaded successfully.");
                          ("files", JArray [])]))).
Proof.
  apply postUpload_no_parts; [|reflexivity].
  exists "s3cret". repeat split. discriminate.
Qed.

(** ** Bulk delete *)

Lemma unlink_files (p : string) (w : World) :
  files (fst (unlink p w)) = delete p (files w).
Proof.
  unfold unlink, isFile. case_bool_decide as Hf; [reflexivity|].
  assert (Hnone : files w !! p = None).
  { destruct (files w !! p) eqn:E; [|reflexivity]. exfalso. apply Hf. eauto. }
  destruct (isDir p w); simpl; symmetry; apply delete_id; exact Hnone.
Qed.

Lemma unlink_dirs (p : string) (w : World) : dirs (fst (unlink p w)) = dirs w.
Proof. unfold unlink. destruct (isFile p w), (isDir p w); reflexivity. Qed.

Lemma unlink_trace (p : string) (w : World) :
  trace (fst (unlink p w)) = (trace w ++ [SysUnlink p])%list.
Proof. unfold unlink. destruct (isFile p w), (isDir p w); reflexivity. Qed.

(** [unlink] resolves exactly on regular files. *)
Lemma unlink_result (p : string) (w : World) :
  (isFile p w = true /\ snd (unlink p w) = None)
  \/ (isFile p w = false /\ exists e : JsError, snd (unlink p w) = Some e).
Proof.
  unfold unlink. destruct (isFile p w); [left; split; reflexivity|].
  right. split; [reflexivity|]. destruct (isDir p w); eexists; reflexivity.
Qed.

Lemma isFile_after_unlink (p q : string) (w : World) :
  isFile q w = false -> isFile q (fst (unlink p w)) = false.
Proof.
  unfold isFile. rewrite unlink_files. intros H.
  apply bool_decide_eq_false in H. apply bool_decide_eq_false.
  intros [v Hv]. apply H. apply lookup_delete_Some in Hv. destruct Hv as [_ Hv]. eauto.
Qed.

Lemma unlinkAll_cons (p : string) (rest : list string) (w : World) :
  unlinkAll (p :: rest) w
  = (fst (unlinkAll rest (fst (unlink p w))),
     snd (unlink p w) :: snd (unlinkAll rest (fst (unlink p w)))).
Proof.
  cbn [unlinkAll]. destruct (unlink p w) as [w1 r]. simpl.
  destruct (unlinkAll rest w1) as [w2 rs]. reflexivity.
Qed.

Lemma unlinkAll_trace (paths : list string) (w : World) :
  trace (fst (unlinkAll paths w)) = (trace w ++ List.map SysUnlink paths)%list.
Proof.
  revert w. induction paths as [|p rest IH]; intros w.
  - simpl. rewrite app_nil_r. reflexivity.
  - rewrite unlinkAll_cons. cbn [fst]. rewrite IH, unlink_trace.
    rewrite <- app_assoc. reflexivity.
Qed.

Lemma unlinkAll_dirs (paths : list string) (w : World) :
  dirs (fst (unlinkAll paths w)) = dirs w.
Proof.
  revert w. induction paths as [|p rest IH]; intros w; [reflexivity|].
  rewrite unlinkAll_cons. cbn [fst]. rewrite IH. apply unlink_dirs.
Qed.

Lemma unlinkAll_files (paths : list string) (w : World) (q : string) :
  files (fst (unlinkAll paths w)) !! q
  = if bool_decide (q ∈ paths) then None else files w !! q.
Proof.
  revert w. induction paths as [|p rest IH]; intros w.
  - reflexivity.
  - rewrite unlinkAll_cons. cbn [fst]. rewrite IH, unlink_files.
    destruct (decide (q = p)) as [->|Hne].
    + rewrite lookup_delete_eq.
      rewrite (bool_decide_eq_true_2 (p ∈ p :: rest)) by (left).
      destruct (bool_decide (p ∈ rest)); reflexivity.
    + rewrite lookup_delete_ne by congruence.
      rewrite (bool_decide_ext (q ∈ p :: rest) (q ∈ rest)); [reflexivity|].
      rewrite elem_of_cons. tauto.
Qed.

Lemma unlinkAll_length (paths : list string) (w : World) :
  List.length (snd (unlinkAll paths w)) = List.length paths.
Proof.
  revert w. induction paths as [|p rest IH]; intros w; [reflexivity|].
  rewrite unlinkAll_cons. cbn [snd List.length]. rewrite IH. reflexivity.
Qed.


Lemma deleteDelete_accepted (cfg : Config) (req : Request) (w : World) :
  keyAccepted cfg req ->
  truthy (queryFilenames req) = true ->
  deleteDelete cfg req w
  = (fst (unlinkAll (List.map (candidate cfg) (filesArrayOf (queryFilenames req))) w),
     Replied (deleteReport
                (snd (unlinkAll (List.map (candidate cfg)
                                          (filesArrayOf (queryFilenames req))) w)))).
Proof.
  intros H Ht. unfold deleteDelete, deleteRoute. cbn [runChain].
  rewrite (validateApiKey_accepts cfg req w H). unfold deleteHandler.
  rewrite Ht. cbn [negb].
  destruct (unlinkAll _ w) as [w' results]. reflexivity.
Qed.

Lemma errorsOf_messages (results : list (option JsError)) :
  List.map message (errorsOf results) = failureMessages results.
Proof.
  unfold errorsOf, failureMessages.
  induction results as [|[e|] rest IH]; simpl; [reflexivity| |exact IH].
  f_equal. exact IH.
Qed.

Lemma errorsOf_nil (results : list (option JsError)) :
  errorsOf results = [] <-> Forall (fun r => r = None) results.
Proof.
  unfold errorsOf. induction results as [|[e|] rest IH]; simpl.
  - split; constructor.
  - split; [discriminate|]. intros H. inversion H. discriminate.
  - rewrite IH. split; [constructor; [reflexivity|assumption]|].
    intros H. inversion H. assumption.
Qed.

Lemma deleteReport_failed (results : list (option JsError)) :
  errorsOf results <> [] ->
  deleteReport results
  = mkResponse 500
      (JObject [("message", JString "Error deleting files.");
                ("errors", JArray (List.map JString (failureMessages results)))]).
Proof.
  intros H. unfold deleteReport. rewrite <- errorsOf_messages, List.map_map.
  destruct (errorsOf results); [contradiction | reflexivity].
Qed.

Lemma deleteReport_clean (results : list (option JsError)) :
  errorsOf results = [] ->
  deleteReport results = mkResponse 200 (jsonMessage "Files deleted successfully.").
Proof. intros H. unfold deleteReport. rewrite H. reflexivity. Qed.


(** The concrete case of the specification: [a.txt] exists, [b.txt] does
    not.  [a.txt] is gone afterwards, both removals were issued, and the
    answer is 500 with the one error, for [b.txt]. *)
Example delete_a_and_b :
  let out := deleteDelete sampleConfig
               (deleteRequest (Some "s3cret") (VString "a.txt,b.txt")) sampleWorld in
  isFile "/srv/app/public/a.txt" sampleWorld = true
  /\ isFile "/srv/app/public/a.txt" (fst out) = false
  /\ trace (fst out) = [SysUnlink "/srv/app/public/a.txt";
                        SysUnlink "/srv/app/public/b.txt"]
  /\ snd out
     = Replied (mkResponse 500
         (JObject [("message", JString "Error deleting files.");
                   ("errors",
                    JArray [JString "ENOENT: no such file or directory, unlink '/srv/app/public/b.txt'"])])).
Proof. vm_compute. repeat split. Qed.

(** C2, as the claim states it, fails: the path removed for [a.txt] is
    not the join of the upload root with [a.txt]. *)
Lemma delete_candidate_not_under_uploadRoot :
  candidate sampleConfig (VString "a.txt") = "/srv/app/public/a.txt"
  /\ NodePath.pathJoin [uploadRoot sampleConfig; "a.txt"] = "/srv/app/public/uploads/a.txt"
  /\ ~ In (SysUnlink (NodePath.pathJoin [uploadRoot sampleConfig; "a.txt"]))
          (trace (fst (deleteDelete sampleConfig
                         (deleteRequest (Some "s3cret") (VString "a.txt"))
                         sampleWorld))).
Proof.
  split; [reflexivity|]. split; [reflexivity|].
  vm_compute. intros [H|[]]. discriminate H.
Qed.

(** C2, amended.  For every path of an accepted delete request, the
    handler joins [__dirname], [../public] and the path as given (so
    the path is read below the [public] directory, the parent of the
    upload root) and issues the removal of exactly that candidate, in
    request order. *)
Theorem delete_candidates (cfg : Config) (req : Request) (w : World) :
  keyAccepted cfg req ->
  truthy (queryFilenames req) = true ->
  trace (fst (deleteDelete cfg req w))
  = (trace w
     ++ List.map (fun f => SysUnlink (NodePath.pathJoin
                                        [dirname cfg; "../public"; toString f]))
                 (filesArrayOf (queryFilenames req)))%list.
Proof.
  intros H Ht. rewrite (deleteDelete_accepted cfg req w H Ht). cbn [fst].
  rewrite unlinkAll_trace, List.map_map. reflexivity.
Qed.

Lemma delete_candidates_witness :
  trace (fst (deleteDelete sampleConfig
                (deleteRequest (Some "s3cret") (VString "a.txt,uploads/x/1-b.png"))
                sampleWorld))
  = [SysUnlink "/srv/app/public/a.txt"; SysUnlink "/srv/app/public/uploads/x/1-b.png"].
Proof.
  apply (delete_candidates sampleConfig
           (deleteRequest (Some "s3cret") (VString "a.txt,uploads/x/1-b.png"))
           sampleWorld).
  - exists "s3cret". repeat split. discriminate.
  - reflexivity.
Defined.



(** C8.  The answer of an accepted delete request aggregates the
    per-path results: when at least one removal failed it is 500 and
    lists the message of every failure, in order; when all succeeded it
    is the single 200 success message. *)
Theorem delete_aggregation (cfg : Config) (req : Request) (w : World) :
  keyAccepted cfg req ->
  truthy (queryFilenames req) = true ->
  exists results : list (option JsError),
    results = snd (unlinkAll (candidatesOf cfg req) w)
    /\ (Exists (fun r => r <> None) results ->
        snd (deleteDelete cfg req w)
        = Replied (mkResponse 500
            (JObject [("message", JString "Error deleting files.");
                      ("errors", JArray (List.map JString (failureMessages results)))])))
    /\ (Forall (fun r => r = None) results ->
        snd (deleteDelete cfg req w)
        = Replied (mkResponse 200 (jsonMessage "Files deleted successfully."))).
Proof.
  intros H Ht. rewrite (deleteDelete_accepted cfg req w H Ht). cbn [snd].
  fold (candidatesOf cfg req). eexists. split; [reflexivity|]. split.
  - intros Hex. rewrite deleteReport_failed; [reflexivity|].
    intros Hnil. apply errorsOf_nil in Hnil.
    apply List.Exists_exists in Hex. destruct Hex as (r & Hin & Hr).
    rewrite List.Forall_forall in Hnil. apply Hr, Hnil, Hin.
  - intros Hall. rewrite deleteReport_clean; [reflexivity|].
    apply errorsOf_nil, Hall.
Qed.

Lemma delete_aggregation_witness :
  exists results : list (option JsError),
    results = snd (unlinkAll (candidatesOf sampleConfig
                                (deleteRequest (Some "s3cret") (VString "a.txt,b.txt")))
                             sampleWorld)
    /\ (Exists (fun r => r <> None) results ->
        snd (deleteDelete sampleConfig
               (deleteRequest (Some "s3cret") (VString "a.txt,b.txt")) sampleWorld)
        = Replied (mkResponse 500
            (JObject [("message", JString "Error deleting files.");
                      ("errors", JArray (List.map JString (failureMessages results)))])))
    /\ (Forall (fun r => r = None) results ->
        snd (deleteDelete sampleConfig
               (deleteRequest (Some "s3cret") (VString "a.txt,b.txt")) sampleWorld)
        = Replied (mkResponse 200 (jsonMessage "Files deleted successfully."))).
Proof.
  apply (delete_aggregation sampleConfig
           (deleteRequest (Some "s3cret") (VString "a.txt,b.txt")) sampleWorld).
  - exists "s3cret". repeat split. discriminate.
  - reflexivity.
Defined.

(** ** What failure responses contain *)

Lemma validateApiKey_cases (cfg : Config) (req : Request) (w : World) :
  validateApiKey cfg req w = (w, Send forbidden)
  \/ validateApiKey cfg req w = (w, Next req).
Proof.
  unfold validateApiKey.
  destruct (negb _ || negb _); [left | right]; reflexivity.
Qed.

(** ** Where uploads are stored *)

Lemma sapp_cons (x : ascii) (a b : string) : String x a ++ b = String x (a ++ b).
Proof. reflexivity. Qed.

Lemma sapp_nil_l (a : string) : "" ++ a = a.
Proof. reflexivity. Qed.

Lemma sapp_assoc (a b c : string) : (a ++ b) ++ c = a ++ (b ++ c).
Proof.
  induction a as [|x a IH]; [reflexivity|].
  rewrite !sapp_cons, IH. reflexivity.
Qed.

Lemma sapp_nil_r (a : string) : a ++ "" = a.
Proof.
  induction a as [|x a IH]; [reflexivity|].
  rewrite sapp_cons, IH. reflexivity.
Qed.

Lemma sapp_nonempty_r (a b : string) : b <> "" -> a ++ b <> "".
Proof. destruct a; [rewrite sapp_nil_l; tauto | rewrite sapp_cons; discriminate]. Qed.

Lemma sapp_nonempty_l (a b : string) : a <> "" -> a ++ b <> "".
Proof. destruct a; [tauto | rewrite sapp_cons; discriminate]. Qed.

Lemma startsWith_app (s t : string) : startsWith (s ++ t) s = true.
Proof.
  induction s as [|c s IH]; [reflexivity|].
  rewrite sapp_cons. cbn [startsWith]. rewrite Ascii.eqb_refl. exact IH.
Qed.

Lemma isWithin_extension (root ext : string) :
  ext = "" \/ (exists rest : string, ext = "/" ++ rest) ->
  isWithin root (root ++ ext) = true.
Proof.
  intros [->|[rest ->]]; unfold isWithin.
  - rewrite sapp_nil_r, String.eqb_refl. reflexivity.
  - change ("/" ++ rest) with ("/" ++ rest)%string.
    replace (root ++ "/" ++ rest) with ((root ++ "/") ++ rest)
      by (rewrite sapp_assoc; reflexivity).
    rewrite startsWith_app. apply orb_true_r.
Qed.

Lemma splitOn_not_nil (sep : ascii) (s : string) : splitOn sep s <> [].
Proof.
  destruct s as [|c s]; simpl; [discriminate|].
  destruct (Ascii.eqb c sep); [discriminate|].
  destruct (splitOn sep s); discriminate.
Qed.

Lemma splitOn_app (sep : ascii) (s t : string) :
  splitOn sep (s ++ String sep t) = (splitOn sep s ++ splitOn sep t)%list.
Proof.
  induction s as [|c s IH]; [rewrite sapp_nil_l | rewrite sapp_cons]; cbn [splitOn].
  - rewrite Ascii.eqb_refl. reflexivity.
  - destruct (Ascii.eqb c sep); [rewrite IH; reflexivity|].
    rewrite IH. pose proof (splitOn_not_nil sep s) as Hs.
    destruct (splitOn sep s); [contradiction | reflexivity].
Qed.

Lemma pathChar_segment_char (c : ascii) :
  isPathChar c = true -> Ascii.eqb c "/" = false -> isLowerAlnum c = true.
Proof. by_cases_on_char c. Qed.

Lemma lowerAlnum_not_dot (c : ascii) :
  isLowerAlnum c = true -> Ascii.eqb c "." = false.
Proof. by_cases_on_char c. Qed.

(** The segments of a normalized path are plain. *)
Lemma splitOn_plain (s : string) :
  Forall (fun c => isPathChar c = true) (chars s) ->
  Forall plainSegment (splitOn "/" s).
Proof.
  induction s as [|c s IH]; intros H.
  - repeat constructor.
  - rewrite chars_cons in H. inversion H as [|? ? Hc Hs]; subst.
    specialize (IH Hs). cbn [splitOn].
    destruct (Ascii.eqb c "/") eqn:E.
    + constructor; [constructor | exact IH].
    + pose proof (splitOn_not_nil "/" s) as Hn.
      destruct (splitOn "/" s) as [|p ps]; [contradiction|].
      inversion IH; subst. constructor; [|assumption].
      unfold plainSegment. rewrite chars_cons. constructor; [|assumption].
      apply pathChar_segment_char; assumption.
Qed.

Lemma pushSegment_plain (allow : bool) (stack : list string) (seg : string) :
  plainSegment seg ->
  NodePath.pushSegment allow stack seg = if nonEmpty seg then seg :: stack else stack.
Proof.
  intros H. destruct seg as [|c seg]; [reflexivity|].
  unfold plainSegment in H. rewrite chars_cons in H. inversion H as [|? ? Hc _]; subst.
  apply lowerAlnum_not_dot in Hc.
  unfold NodePath.pushSegment. simpl. rewrite Hc. reflexivity.
Qed.

Lemma fold_pushSegment_plain (allow : bool) (segs stack : list string) :
  Forall plainSegment segs ->
  fold_left (NodePath.pushSegment allow) segs stack
  = (rev (List.filter nonEmpty segs) ++ stack)%list.
Proof.
  revert stack. induction segs as [|seg segs IH]; intros stack H; [reflexivity|].
  inversion H; subst. cbn [fold_left List.filter].
  rewrite pushSegment_plain by assumption. rewrite IH by assumption.
  destruct (nonEmpty seg); [|reflexivity].
  cbn [rev]. rewrite <- app_assoc. reflexivity.
Qed.

Lemma join_cons_slashed (x : string) (m : list string) :
  join "/" (x :: m) = x ++ slashed m.
Proof.
  revert x. induction m as [|y m IH]; intros x.
  - simpl. rewrite sapp_nil_r. reflexivity.
  - change (join "/" (x :: y :: m)) with (x ++ "/" ++ join "/" (y :: m)).
    rewrite IH. reflexivity.
Qed.

Lemma slashed_app (l m : list string) : slashed (l ++ m) = slashed l ++ slashed m.
Proof.
  induction l as [|x l IH]; [reflexivity|].
  cbn [slashed app]. rewrite IH.
  change ("/" ++ x ++ slashed l ++ slashed m) with (String "/" (x ++ slashed l ++ slashed m)).
  change (("/" ++ x ++ slashed l) ++ slashed m)
    with (String "/" ((x ++ slashed l) ++ slashed m)).
  rewrite sapp_assoc. reflexivity.
Qed.

Lemma join_app_slashed (l m : list string) :
  l <> [] -> join "/" (l ++ m) = join "/" l ++ slashed m.
Proof.
  destruct l as [|x l]; [contradiction|]. intros _.
  change ((x :: l) ++ m)%list with (x :: (l ++ m))%list.
  rewrite !join_cons_slashed, slashed_app, sapp_assoc. reflexivity.
Qed.

Lemma lastChar_app (s t : string) : t <> "" -> lastChar (s ++ t) = lastChar t.
Proof.
  intros Ht. induction s as [|c s IH]; [reflexivity|].
  change (String c s ++ t) with (String c (s ++ t)).
  pose proof (sapp_nonempty_r s t Ht) as Hne.
  cbn [lastChar]. destruct (s ++ t); [contradiction | exact IH].
Qed.

Lemma isAbsolute_app (s t : string) :
  s <> "" -> NodePath.isAbsolute (s ++ t) = NodePath.isAbsolute s.
Proof.
  destruct s as [|c s]; [contradiction|]. intros _.
  reflexivity.
Qed.

Lemma normalize_of_body (J : string) :
  J <> "" ->
  join "/" (NodePath.normalizeSegments (negb (NodePath.isAbsolute J)) (splitOn "/" J)) <> "" ->
  NodePath.normalize J
  = (if NodePath.isAbsolute J then "/" else "")
    ++ join "/" (NodePath.normalizeSegments (negb (NodePath.isAbsolute J)) (splitOn "/" J))
    ++ (if NodePath.trailingSeparator J then "/" else "").
Proof.
  intros HJ Hb. unfold NodePath.normalize.
  apply String.eqb_neq in HJ. apply String.eqb_neq in Hb.
  rewrite HJ, Hb. reflexivity.
Qed.

Lemma normalizeSegments_app_plain (allow : bool) (A B : list string) :
  Forall plainSegment B ->
  NodePath.normalizeSegments allow (A ++ B)
  = (NodePath.normalizeSegments allow A ++ List.filter nonEmpty B)%list.
Proof.
  intros HB. unfold NodePath.normalizeSegments.
  rewrite fold_left_app, fold_pushSegment_plain by assumption.
  rewrite rev_app_distr, rev_involutive. reflexivity.
Qed.

Lemma join_snoc_nonempty (X : list string) (y : string) :
  y <> "" -> join "/" (X ++ [y]) <> "".
Proof.
  intros Hy. destruct X as [|x X]; [exact Hy|].
  change ((x :: X) ++ [y])%list with (x :: (X ++ [y]))%list.
  rewrite join_cons_slashed, slashed_app.
  apply sapp_nonempty_r, sapp_nonempty_r. discriminate.
Qed.

Lemma trailingSeparator_app (s t : string) :
  t <> "" -> NodePath.trailingSeparator (s ++ t) = NodePath.trailingSeparator t.
Proof. intros H. unfold NodePath.trailingSeparator. rewrite lastChar_app by exact H. reflexivity. Qed.

(** Appending a normalized path to a path that ends in a plain segment
    only adds segments. *)
Lemma normalize_extend (J np : string) :
  J <> "" ->
  NodePath.trailingSeparator J = false ->
  join "/" (NodePath.normalizeSegments (negb (NodePath.isAbsolute J)) (splitOn "/" J)) <> "" ->
  np <> "" ->
  Forall (fun c => isPathChar c = true) (chars np) ->
  NodePath.normalize (J ++ String "/" np)
  = NodePath.normalize J
    ++ slashed (List.filter nonEmpty (splitOn "/" np))
    ++ (if NodePath.trailingSeparator np then "/" else "").
Proof.
  intros HJ Htr Hbody Hnp Hchars.
  assert (Hseg : NodePath.normalizeSegments (negb (NodePath.isAbsolute J))
                   (splitOn "/" (J ++ String "/" np))
                 = (NodePath.normalizeSegments (negb (NodePath.isAbsolute J)) (splitOn "/" J)
                    ++ List.filter nonEmpty (splitOn "/" np))%list).
  { rewrite splitOn_app. apply normalizeSegments_app_plain, splitOn_plain, Hchars. }
  assert (Hne : NodePath.normalizeSegments (negb (NodePath.isAbsolute J)) (splitOn "/" J) <> []).
  { intros E. rewrite E in Hbody. apply Hbody. reflexivity. }
  rewrite (normalize_of_body J HJ Hbody), Htr.
  rewrite normalize_of_body.
  - rewrite isAbsolute_app by exact HJ. rewrite Hseg.
    rewrite join_app_slashed by exact Hne.
    rewrite trailingSeparator_app by discriminate.
    change (String "/" np) with ("/" ++ np).
    rewrite trailingSeparator_app by exact Hnp.
    rewrite !sapp_assoc, sapp_nil_l. reflexivity.
  - apply sapp_nonempty_l, HJ.
  - rewrite isAbsolute_app by exact HJ. rewrite Hseg.
    rewrite join_app_slashed by exact Hne. apply sapp_nonempty_l, Hbody.
Qed.

Lemma slashed_tail_shape (segs : list string) (trail : bool) :
  slashed segs ++ (if trail then "/" else "") = ""
  \/ exists rest : string,
      slashed segs ++ (if trail then "/" else "") = "/" ++ rest.
Proof.
  destruct segs as [|s segs].
  - destruct trail; [right; exists ""; reflexivity | left; reflexivity].
  - right. eexists. cbn [slashed]. rewrite sapp_assoc. reflexivity.
Qed.

Lemma pathJoin_two (d tail : string) :
  tail <> "" -> NodePath.pathJoin [d; tail] = NodePath.normalize (joinedUnder d tail).
Proof.
  intros Ht. apply nonEmpty_true in Ht. unfold NodePath.pathJoin, joinedUnder.
  cbn [List.filter]. rewrite Ht. destruct (nonEmpty d); reflexivity.
Qed.

Lemma pathJoin_three (d tail np : string) :
  tail <> "" -> np <> "" ->
  NodePath.pathJoin [d; tail; np]
  = NodePath.normalize (joinedUnder d tail ++ String "/" np).
Proof.
  intros Ht Hn. apply nonEmpty_true in Ht. apply nonEmpty_true in Hn.
  unfold NodePath.pathJoin, joinedUnder.
  cbn [List.filter]. rewrite Ht, Hn. destruct (nonEmpty d); cbn [join].
  - rewrite sapp_assoc. reflexivity.
  - reflexivity.
Qed.

Lemma pathJoin_three_empty (d tail : string) :
  NodePath.pathJoin [d; tail; ""] = NodePath.pathJoin [d; tail].
Proof.
  unfold NodePath.pathJoin. cbn [List.filter].
  destruct (nonEmpty d), (nonEmpty tail); reflexivity.
Qed.

(** The joined path of a directory [__dirname/../a/b.../y] ends in the
    plain segment [y], so its normal form has a body and no trailing
    separator. *)
Lemma joinedUnder_ready (d front y : string) :
  plainSegment y -> y <> "" ->
  joinedUnder d (front ++ String "/" y) <> ""
  /\ NodePath.trailingSeparator (joinedUnder d (front ++ String "/" y)) = false
  /\ join "/" (NodePath.normalizeSegments
                 (negb (NodePath.isAbsolute (joinedUnder d (front ++ String "/" y))))
                 (splitOn "/" (joinedUnder d (front ++ String "/" y)))) <> "".
Proof.
  intros Hy Hne.
  assert (Hlast : lastChar y <> Some "/"%char).
  { clear Hne. unfold plainSegment in Hy.
    induction y as [|c y IH]; [discriminate|].
    rewrite chars_cons in Hy. inversion Hy as [|? ? Hc Hy']; subst.
    cbn [lastChar]. destruct y as [|c' y].
    - intros E. injection E as ->. discriminate Hc.
    - apply IH, Hy'. }
  assert (Hshape : exists A, joinedUnder d (front ++ String "/" y) = A ++ String "/" y).
  { unfold joinedUnder. destruct (nonEmpty d).
    - exists (d ++ String "/" front). rewrite sapp_assoc. reflexivity.
    - exists front. reflexivity. }
  destruct Hshape as [A ->]. split; [|split].
  - apply sapp_nonempty_r. discriminate.
  - change (String "/" y) with ("/" ++ y).
    rewrite !trailingSeparator_app by (try discriminate; assumption).
    unfold NodePath.trailingSeparator.
    destruct (lastChar y) as [c|] eqn:E; [|reflexivity].
    destruct (isSlash c) eqn:Es; [|reflexivity].
    exfalso. apply Hlast. f_equal. revert Es. clear. by_cases_on_char c.
  - rewrite splitOn_app.
    assert (Hy1 : splitOn "/" y = [y]).
    { clear Hne Hlast. unfold plainSegment in Hy.
      induction y as [|c y IH]; [reflexivity|].
      rewrite chars_cons in Hy. inversion Hy as [|? ? Hc Hy']; subst.
      cbn [splitOn]. rewrite (IH Hy').
      replace (Ascii.eqb c "/") with false; [reflexivity|].
      revert Hc. clear. by_cases_on_char c. }
    rewrite Hy1, normalizeSegments_app_plain by (repeat constructor; exact Hy).
    cbn [List.filter]. apply nonEmpty_true in Hne. rewrite Hne.
    apply join_snoc_nonempty. apply nonEmpty_true, Hne.
Qed.

Lemma plain_public : plainSegment "public" /\ plainSegment "uploads".
Proof. split; repeat constructor. Qed.

(** The upload root is the directory [uploads] of the [public]
    directory, wherever the program runs from. *)
Lemma uploadRoot_below_publicRoot (cfg : Config) :
  uploadRoot cfg = publicRoot cfg ++ "/uploads".
Proof.
  unfold uploadRoot, publicRoot.
  rewrite !pathJoin_two by discriminate.
  destruct (joinedUnder_ready (dirname cfg) ".." "public" (proj1 plain_public))
    as (HJ & Htr & Hbody); [discriminate|].
  change (".." ++ String "/" "public") with "../public" in *.
  replace (joinedUnder (dirname cfg) "../public/uploads")
    with (joinedUnder (dirname cfg) "../public" ++ String "/" "uploads").
  - rewrite (normalize_extend _ "uploads" HJ Htr Hbody);
      [reflexivity | discriminate | repeat constructor].
  - unfold joinedUnder. destruct (nonEmpty (dirname cfg)); [|reflexivity].
    rewrite sapp_assoc. reflexivity.
Qed.

(** * Further properties of the program *)

(** ** The API-key check, both ways *)

Lemma keyAccepted_checks (cfg : Config) (req : Request) :
  keyAccepted cfg req
  <-> headerTruthy (headerApiKey req) = true
      /\ strictEq (headerApiKey req) (API_KEY cfg) = true.
Proof.
  split.
  - intros (k & Hk & Hh & He). rewrite Hh, He. split.
    + apply nonEmpty_true, Hk.
    + apply strictEq_true. reflexivity.
  - intros [Ht He]. apply strictEq_true in He.
    destruct (headerApiKey req) as [k|] eqn:Hh; [|discriminate Ht].
    exists k. split; [apply nonEmpty_true, Ht|]. split; congruence.
Qed.

Lemma validateApiKey_passes_iff_core (cfg : Config) (req : Request) (w : World) :
  (validateApiKey cfg req w = (w, Next req) <-> keyAccepted cfg req)
  /\ (validateApiKey cfg req w = (w, Send forbidden) <-> ~ keyAccepted cfg req).
Proof.
  rewrite keyAccepted_checks. unfold validateApiKey.
  destruct (headerTruthy (headerApiKey req)), (strictEq (headerApiKey req) (API_KEY cfg));
    cbn [negb orb]; (split; split; intros H; try discriminate H; try reflexivity;
                     try (split; reflexivity); try (destruct H; discriminate);
                     try (intros [? ?]; discriminate)).
  all: exfalso; apply H; split; reflexivity.
Qed.

(** X1.  [validateApiKey] lets a request through, unchanged, exactly when
    its [x-api-key] header is a non-empty string equal to
    [process.env.API_KEY]; every other request is answered 403. *)
Theorem validateApiKey_passes_iff (cfg : Config) (req : Request) (w : World) :
  (validateApiKey cfg req w = (w, Next req) <-> keyAccepted cfg req)
  /\ (validateApiKey cfg req w = (w, Send forbidden) <-> ~ keyAccepted cfg req).
Proof. intros; eapply validateApiKey_passes_iff_core; eassumption. Qed.

(** X2.  When [API_KEY] is not set, or set to the empty string, no header
    value opens the protected routes: every request is answered 403. *)
Theorem unset_key_locks_out (cfg : Config) (req : Request) (w : World) :
  API_KEY cfg = None \/ API_KEY cfg = Some "" ->
  postUpload cfg req w = (w, Replied forbidden)
  /\ deleteDelete cfg req w = (w, Replied forbidden).
Proof.
  intros H.
  assert (Hno : ~ keyAccepted cfg req).
  { intros (k & Hk & _ & He). destruct H as [H|H]; rewrite H in He; [discriminate|].
    injection He as <-. apply Hk. reflexivity. }
  apply (validateApiKey_passes_iff_core cfg req w) in Hno.
  unfold postUpload, deleteDelete, uploadRoute, deleteRoute. cbn [runChain].
  rewrite Hno. split; reflexivity.
Qed.

Lemma unset_key_locks_out_witness :
  deleteDelete (mkConfig "/srv/app/dist" (Some ""))
               (deleteRequest (Some "") (VString "a.txt")) sampleWorld
  = (sampleWorld, Replied forbidden).
Proof.
  apply (unset_key_locks_out (mkConfig "/srv/app/dist" (Some ""))
           (deleteRequest (Some "") (VString "a.txt")) sampleWorld).
  right. reflexivity.
Defined.

(** ** More on bulk delete *)

(** X3.  An accepted delete request is answered 400 exactly when
    [filenames] is missing or empty, and then no file-system call is
    made. *)
Theorem delete_requires_filenames (cfg : Config) (req : Request) (w : World) :
  keyAccepted cfg req ->
  exists resp : Response,
    snd (deleteDelete cfg req w) = Replied resp
    /\ (status resp = 400 <-> truthy (queryFilenames req) = false)
    /\ (truthy (queryFilenames req) = false ->
        deleteDelete cfg req w
        = (w, Replied (mkResponse 400 (jsonMessage "Filenames are required.")))).
Proof.
  intros H. destruct (truthy (queryFilenames req)) eqn:Ht.
  - rewrite (deleteDelete_accepted cfg req w H Ht). eexists. split; [reflexivity|].
    split; [|discriminate]. split; [|discriminate].
    unfold deleteReport. destruct (0 <? _); discriminate.
  - unfold deleteDelete, deleteRoute. cbn [runChain].
    rewrite (validateApiKey_accepts cfg req w H). unfold deleteHandler. rewrite Ht.
    eexists. split; [reflexivity|]. split; [split; reflexivity | reflexivity].
Qed.

Lemma delete_requires_filenames_witness :
  exists resp : Response,
    snd (deleteDelete sampleConfig (deleteRequest (Some "s3cret") VUndefined) sampleWorld)
    = Replied resp
    /\ (status resp = 400
        <-> truthy (queryFilenames (deleteRequest (Some "s3cret") VUndefined)) = false)
    /\ (truthy (queryFilenames (deleteRequest (Some "s3cret") VUndefined)) = false ->
        deleteDelete sampleConfig (deleteRequest (Some "s3cret") VUndefined) sampleWorld
        = (sampleWorld,
           Replied (mkResponse 400 (jsonMessage "Filenames are required.")))).
Proof.
  apply (delete_requires_filenames sampleConfig
           (deleteRequest (Some "s3cret") VUndefined) sampleWorld).
  exists "s3cret". repeat split. discriminate.
Defined.

(** X4.  Whatever the request, the delete route creates nothing: the
    directories stay as they were, and every file present afterwards
    was present before, with the same content. *)
Theorem delete_only_removes (cfg : Config) (req : Request) (w : World) :
  dirs (fst (deleteDelete cfg req w)) = dirs w
  /\ files (fst (deleteDelete cfg req w)) ⊆ files w.
Proof.
  unfold deleteDelete, deleteRoute. cbn [runChain].
  destruct (validateApiKey_cases cfg req w) as [E|E]; rewrite E; [split; reflexivity|].
  unfold deleteHandler. destruct (truthy (queryFilenames req)); cbn [negb];
    [|split; reflexivity].
  fold (candidatesOf cfg req).
  pose proof (unlinkAll_dirs (candidatesOf cfg req) w) as Hd.
  pose proof (unlinkAll_files (candidatesOf cfg req) w) as Hf.
  destruct (unlinkAll (candidatesOf cfg req) w) as [w' results]. cbn [fst] in *.
  split; [exact Hd|]. apply map_subseteq_spec. intros q v Hq.
  rewrite Hf in Hq. destruct (bool_decide _); [discriminate | exact Hq].
Qed.


Lemma unlink_ok_iff (p : string) (w : World) :
  snd (unlink p w) = None <-> isFile p w = true.
Proof.
  destruct (unlink_result p w) as [[Hf Hr]|[Hf [e Hr]]]; rewrite Hf, Hr.
  - split; reflexivity.
  - split; discriminate.
Qed.





(** A name given twice: the file is removed, the second removal fails,
    the answer is 500. *)
Example delete_same_name_twice :
  let out := deleteDelete sampleConfig
               (deleteRequest (Some "s3cret") (VString "a.txt,a.txt")) sampleWorld in
  isFile "/srv/app/public/a.txt" (fst out) = false
  /\ snd out
     = Replied (mkResponse 500
         (JObject [("message", JString "Error deleting files.");
                   ("errors",
                    JArray [JString "ENOENT: no such file or directory, unlink '/srv/app/public/a.txt'"])])).
Proof. vm_compute. split; reflexivity. Qed.

(** ** [split] and [join] *)

Lemma splitOn_free (sep : ascii) (s : string) :
  freeOf sep s -> splitOn sep s = [s].
Proof.
  unfold freeOf. induction s as [|c s IH]; intros H; [reflexivity|].
  rewrite chars_cons in H. cbn [splitOn].
  destruct (Ascii.eqb c sep) eqn:E.
  - apply Ascii.eqb_eq in E. exfalso. apply H. left. exact E.
  - rewrite IH; [reflexivity|]. intros Hin. apply H. right. exact Hin.
Qed.

Lemma splitOn_join (sep : ascii) (items : list string) :
  items <> [] ->
  Forall (freeOf sep) items ->
  splitOn sep (join (String sep "") items) = items.
Proof.
  intros Hne H. induction items as [|x items IH]; [contradiction|].
  inversion H as [|? ? Hx Hitems]; subst.
  destruct items as [|y items].
  - apply splitOn_free, Hx.
  - change (join (String sep "") (x :: y :: items))
      with (x ++ String sep (join (String sep "") (y :: items))).
    rewrite splitOn_app, splitOn_free by exact Hx.
    rewrite IH by (discriminate || assumption). reflexivity.
Qed.

Lemma join_splitOn (sep : ascii) (s : string) :
  join (String sep "") (splitOn sep s) = s.
Proof.
  induction s as [|c s IH]; [reflexivity|]. cbn [splitOn].
  pose proof (splitOn_not_nil sep s) as Hn.
  destruct (Ascii.eqb c sep) eqn:E.
  - apply Ascii.eqb_eq in E. subst c.
    destruct (splitOn sep s) as [|p ps]; [contradiction|].
    change (join (String sep "") ("" :: p :: ps))
      with ("" ++ String sep (join (String sep "") (p :: ps))).
    rewrite IH. reflexivity.
  - destruct (splitOn sep s) as [|p ps]; [contradiction|].
    destruct ps as [|p' ps].
    + cbn [join] in *. rewrite IH. reflexivity.
    + change (join (String sep "") (String c p :: p' :: ps))
        with (String c (p ++ String sep (join (String sep "") (p' :: ps)))).
      change (join (String sep "") (p :: p' :: ps))
        with (p ++ String sep (join (String sep "") (p' :: ps))) in IH.
      rewrite IH. reflexivity.
Qed.

(** X6.  [filenames] given as a repeated parameter and given as one
    comma-separated string are treated alike, provided no name holds a
    comma and the joined string is not empty. *)
Theorem delete_array_or_commas (cfg : Config) (req : Request) (w : World)
        (names : list string) :
  names <> [] ->
  Forall (freeOf ",") names ->
  join "," names <> "" ->
  deleteDelete cfg (withFilenames (VArray (List.map VString names)) req) w
  = deleteDelete cfg (withFilenames (VString (join "," names)) req) w.
Proof.
  intros Hne Hfree Hj. unfold deleteDelete, deleteRoute. cbn [runChain].
  unfold validateApiKey. cbn [headerApiKey withFilenames].
  destruct (negb _ || negb _); [reflexivity|].
  assert (Htr : truthy (VString (join "," names)) = true)
    by (apply nonEmpty_true, Hj).
  unfold deleteHandler, withFilenames. cbn [queryFilenames]. rewrite Htr.
  cbn [truthy negb filesArrayOf toString].
  rewrite (splitOn_join "," names Hne Hfree). reflexivity.
Qed.

Lemma delete_array_or_commas_witness :
  deleteDelete sampleConfig
    (withFilenames (VArray (List.map VString ["a.txt"; "b.txt"]))
                   (deleteRequest (Some "s3cret") VUndefined)) sampleWorld
  = deleteDelete sampleConfig
      (withFilenames (VString (join "," ["a.txt"; "b.txt"]))
                     (deleteRequest (Some "s3cret") VUndefined)) sampleWorld.
Proof.
  apply (delete_array_or_commas sampleConfig (deleteRequest (Some "s3cret") VUndefined)
           sampleWorld ["a.txt"; "b.txt"]).
  - discriminate.
  - repeat constructor; unfold freeOf; cbn;
      intros H; repeat (destruct H as [H|H]; [discriminate H|]); exact H.
  - discriminate.
Defined.

(** ** More on the normaliser *)

Lemma slength_app (a b : string) :
  String.length (a ++ b) = String.length a + String.length b.
Proof.
  induction a as [|c a IH]; [reflexivity|].
  rewrite sapp_cons. cbn [String.length]. rewrite IH. reflexivity.
Qed.

Lemma replaceRunsFrom_length (cls : ascii -> bool) (rep s : string) (inRun : bool) :
  String.length rep <= 1 ->
  String.length (replaceRunsFrom cls rep inRun s) <= String.length s.
Proof.
  intros Hrep. revert inRun. induction s as [|c s IH]; intros inRun; [reflexivity|].
  cbn [replaceRunsFrom String.length]. destruct (cls c).
  - destruct inRun.
    + specialize (IH true). lia.
    + rewrite slength_app. specialize (IH true). lia.
  - cbn [String.length]. specialize (IH false). lia.
Qed.

Lemma replaceRunsFrom_filter (cls keep : ascii -> bool) (rep s : string) (inRun : bool) :
  List.filter keep (chars rep) = [] ->
  (forall c, cls c = true -> keep c = false) ->
  List.filter keep (chars (replaceRunsFrom cls rep inRun s)) = List.filter keep (chars s).
Proof.
  intros Hrep Hcls. revert inRun. induction s as [|c s IH]; intros inRun; [reflexivity|].
  cbn [replaceRunsFrom]. rewrite (chars_cons c s). cbn [List.filter].
  destruct (cls c) eqn:E.
  - rewrite (Hcls c E). destruct inRun; [apply IH|].
    rewrite chars_app, List.filter_app, Hrep. apply IH.
  - rewrite chars_cons. cbn [List.filter]. rewrite IH. reflexivity.
Qed.

Lemma replaceRunsFromU_length (cls : N -> bool) (rep t : text) (inRun : bool) :
  List.length rep <= 1 ->
  List.length (replaceRunsFromU cls rep inRun t) <= List.length t.
Proof.
  intros Hrep. revert inRun. induction t as [|u t IH]; intros inRun; [reflexivity|].
  cbn [replaceRunsFromU List.length]. destruct (cls u).
  - destruct inRun.
    + specialize (IH true). lia.
    + rewrite length_app. specialize (IH true). lia.
  - cbn [List.length]. specialize (IH false). lia.
Qed.

Lemma replaceRunsFromU_filter (cls keep : N -> bool) (rep t : text) (inRun : bool) :
  List.filter keep rep = [] ->
  (forall u, cls u = true -> keep u = false) ->
  List.filter keep (replaceRunsFromU cls rep inRun t) = List.filter keep t.
Proof.
  intros Hrep Hcls. revert inRun. induction t as [|u t IH]; intros inRun; [reflexivity|].
  cbn [replaceRunsFromU List.filter].
  destruct (cls u) eqn:E.
  - rewrite (Hcls u E). destruct inRun; [apply IH|].
    rewrite List.filter_app, Hrep. apply IH.
  - cbn [List.filter]. rewrite IH. reflexivity.
Qed.

Lemma notAlnumOrSlashU_not_alnum (u : N) :
  notAlnumOrSlashU u = true -> isAlnumU u = false.
Proof.
  unfold notAlnumOrSlashU. intros H. apply negb_true_iff, orb_false_iff in H. apply H.
Qed.

Lemma lowerAsciiUnit_alnum (u : N) : isAlnumU (lowerAsciiUnit u) = isAlnumU u.
Proof.
  unfold lowerAsciiUnit. destruct (isUpperU u) eqn:E; [|reflexivity].
  unfold isAlnumU, isLowerU, isUpperU, isDigitU, betweenU in *.
  apply andb_true_iff in E. destruct E as [E1 E2]. apply N.leb_le in E1, E2.
  repeat match goal with
         | |- context [(?a <=? ?b)%N] => destruct (N.leb_spec a b)
         end; cbn [andb orb]; try reflexivity; lia.
Qed.

Lemma filter_map_alnum (t : text) :
  List.filter isAlnumU (List.map lowerAsciiUnit t)
  = List.map lowerAsciiUnit (List.filter isAlnumU t).
Proof.
  induction t as [|u t IH]; [reflexivity|].
  cbn [List.map List.filter]. rewrite lowerAsciiUnit_alnum.
  destruct (isAlnumU u); cbn [List.map]; rewrite IH; reflexivity.
Qed.

(** Relative to the lower-cased path, the replacement only turns units
    into separators. *)
Lemma normalizedPath_of_lowered (toLowerCase : text -> text) (s : text) :
  List.length (normalizedPath toLowerCase s) <= List.length (toLowerCase s)
  /\ List.filter isAlnumU (normalizedPath toLowerCase s)
     = List.filter isAlnumU (toLowerCase s).
Proof.
  unfold normalizedPath, replaceRunsU. split.
  - apply replaceRunsFromU_length. cbn. lia.
  - apply replaceRunsFromU_filter; [reflexivity|]. apply notAlnumOrSlashU_not_alnum.
Qed.

(** X9.  The replacement never lengthens: the normalized path is no
    longer than the lower-cased path and holds the same letters and
    digits, in order.  For a path of ASCII characters, it is no longer
    than the path itself and holds its letters and digits, lower-cased
    and in order: only the other characters are turned into
    separators. *)
Theorem normalizedPath_keeps_alnum (toLowerCase : text -> text) (s : text) :
  (List.length (normalizedPath toLowerCase s) <= List.length (toLowerCase s)
   /\ List.filter isAlnumU (normalizedPath toLowerCase s)
      = List.filter isAlnumU (toLowerCase s))
  /\ (asciiCase toLowerCase -> Forall (fun u => (u < 128)%N) s ->
      List.length (normalizedPath toLowerCase s) <= List.length s
      /\ List.filter isAlnumU (normalizedPath toLowerCase s)
         = List.map lowerAsciiUnit (List.filter isAlnumU s)).
Proof.
  pose proof (normalizedPath_of_lowered toLowerCase s) as [Hlen Hfil].
  split; [split; assumption|].
  intros Hlaw Hs. rewrite Hfil. rewrite (Hlaw s Hs) in *.
  rewrite length_map in Hlen. split; [exact Hlen | apply filter_map_alnum].
Qed.

(** The path [A b/../C], and a path of U+0130 alone, which is lengthened
    by the lower-casing. *)
Lemma normalizedPath_keeps_alnum_witness :
  asciiCase sampleLowerCase
  /\ Forall (fun u => (u < 128)%N) (unitsOf "A b/../C")
  /\ List.filter isAlnumU (normalizedPath sampleLowerCase (unitsOf "A b/../C"))
     = unitsOf "abc"
  /\ List.length (normalizedPath sampleLowerCase [304%N]) = 2.
Proof.
  split; [exact sampleLowerCase_asciiCase|].
  assert (H : Forall (fun u => (u < 128)%N) (unitsOf "A b/../C")).
  { repeat constructor. }
  split; [exact H|]. split; [|reflexivity].
  apply (normalizedPath_keeps_alnum sampleLowerCase (unitsOf "A b/../C")).
  - exact sampleLowerCase_asciiCase.
  - exact H.
Defined.

(** ** More on the stored file name *)

Lemma notAlnum_kept (c : ascii) : notAlnum c = false -> isAlnumOrDash c = true.
Proof. by_cases_on_char c. Qed.

Lemma notAlnum_kept_not_dash (c : ascii) : notAlnum c = false -> Ascii.eqb "-" c = false.
Proof. by_cases_on_char c. Qed.

(** After [replace(/[^a-zA-Z0-9]+/g, "-")] no two dashes are adjacent,
    and right after a replaced run the output does not go on with a
    dash. *)
Lemma sanitize_no_double_dash (s : string) (inRun : bool) :
  includes (replaceRunsFrom notAlnum "-" inRun s) "--" = false
  /\ (inRun = true -> startsWith (replaceRunsFrom notAlnum "-" inRun s) "-" = false).
Proof.
  revert inRun. induction s as [|c s IH]; intros inRun.
  - split; reflexivity.
  - cbn [replaceRunsFrom]. destruct (notAlnum c) eqn:E.
    + destruct inRun; [apply IH|].
      split; [|discriminate].
      destruct (IH true) as [Hinc Hst].
      change ("-" ++ replaceRunsFrom notAlnum "-" true s)
        with (String "-" (replaceRunsFrom notAlnum "-" true s)).
      cbn [includes]. rewrite Hinc, orb_false_r.
      cbn [startsWith]. rewrite Ascii.eqb_refl. cbn [andb].
      apply Hst. reflexivity.
    + destruct (IH false) as [Hinc _].
      pose proof (notAlnum_kept_not_dash c E) as Hd.
      split.
      * cbn [includes]. rewrite Hinc, orb_false_r. cbn [startsWith]. rewrite Hd. reflexivity.
      * intros _. cbn [startsWith]. rewrite Hd. reflexivity.
Qed.

Lemma filename_base_sanitized_core (now : N) (originalname : string) :
  filename now originalname
  = decimal now ++ "-" ++ sanitizedBase originalname ++ NodePath.extname originalname
  /\ Forall (fun c => isAlnumOrDash c = true) (chars (sanitizedBase originalname))
  /\ includes (sanitizedBase originalname) "--" = false.
Proof.
  split; [reflexivity|]. unfold sanitizedBase, replaceRuns. split.
  - apply replaceRunsFrom_chars; [repeat constructor|].
    apply List.Forall_forall. intros c _. apply notAlnum_kept.
  - apply sanitize_no_double_dash.
Qed.

(** X12.  The stored name is the time, a dash, the sanitized base and the
    extension; the sanitized base holds only letters, digits and single
    dashes, whatever the original name. *)
Theorem filename_base_sanitized (now : N) (originalname : string) :
  filename now originalname
  = decimal now ++ "-" ++ sanitizedBase originalname ++ NodePath.extname originalname
  /\ Forall (fun c => isAlnumOrDash c = true) (chars (sanitizedBase originalname))
  /\ includes (sanitizedBase originalname) "--" = false.
Proof. intros; eapply filename_base_sanitized_core; eassumption. Qed.

Lemma freeOf_app (c : ascii) (a b : string) :
  freeOf c (a ++ b) <-> freeOf c a /\ freeOf c b.
Proof. unfold freeOf. rewrite chars_app, in_app_iff. tauto. Qed.

Lemma freeOf_cons (c x : ascii) (s : string) :
  freeOf c (String x s) <-> x <> c /\ freeOf c s.
Proof. unfold freeOf. rewrite chars_cons. cbn [In]. tauto. Qed.

Lemma freeOf_nil (c : ascii) : freeOf c "".
Proof. intros H. destruct H. Qed.

Lemma freeOf_class (c : ascii) (P : ascii -> bool) (s : string) :
  P c = false -> Forall (fun x => P x = true) (chars s) -> freeOf c s.
Proof.
  intros Hc H Hin. rewrite List.Forall_forall in H. apply H in Hin. congruence.
Qed.

(** The pieces of [split] do not hold the separator. *)
Lemma splitOn_pieces_free (sep : ascii) (s : string) :
  Forall (freeOf sep) (splitOn sep s).
Proof.
  induction s as [|c s IH]; [repeat constructor; apply freeOf_nil|].
  cbn [splitOn]. destruct (Ascii.eqb c sep) eqn:E.
  - constructor; [apply freeOf_nil | exact IH].
  - pose proof (splitOn_not_nil sep s) as Hn.
    destruct (splitOn sep s) as [|p ps]; [contradiction|].
    inversion IH; subst. constructor; [|assumption].
    apply freeOf_cons. split; [|assumption].
    intros ->. rewrite Ascii.eqb_refl in E. discriminate E.
Qed.

Lemma lastComponent_free (p : string) : freeOf "/" (NodePath.lastComponent p).
Proof.
  unfold NodePath.lastComponent.
  destruct (List.filter nonEmpty (rev (splitOn "/" p))) as [|b bs] eqn:E;
    [apply freeOf_nil|].
  assert (Hin : In b (List.filter nonEmpty (rev (splitOn "/" p))))
    by (rewrite E; left; reflexivity).
  apply filter_In in Hin. destruct Hin as [Hin _]. apply in_rev in Hin.
  pose proof (splitOn_pieces_free "/" p) as H.
  rewrite List.Forall_forall in H. apply H, Hin.
Qed.

Lemma splitLastDot_app (s pre ext : string) :
  NodePath.splitLastDot s = Some (pre, ext) ->
  s = pre ++ ext /\ exists t : string, ext = String "." t.
Proof.
  revert pre ext. induction s as [|c s IH]; intros pre ext H; [discriminate|].
  cbn [NodePath.splitLastDot] in H.
  destruct (NodePath.splitLastDot s) as [[pre' ext']|].
  - injection H as <- <-. destruct (IH pre' ext' eq_refl) as [-> Ht].
    split; [reflexivity | exact Ht].
  - destruct (isDot c) eqn:E; [|discriminate]. injection H as <- <-.
    split; [reflexivity|]. exists s. f_equal. revert E. clear. by_cases_on_char c.
Qed.

(** The extension is empty or starts with a dot, and holds no
    separator. *)
Lemma extname_shape (p : string) :
  freeOf "/" (NodePath.extname p)
  /\ (NodePath.extname p = "" \/ exists t : string, NodePath.extname p = String "." t).
Proof.
  unfold NodePath.extname.
  destruct (NodePath.splitLastDot (NodePath.lastComponent p)) as [[pre ext]|] eqn:E;
    [|split; [apply freeOf_nil | left; reflexivity]].
  destruct (String.eqb pre "" || String.eqb (NodePath.lastComponent p) "..");
    [split; [apply freeOf_nil | left; reflexivity]|].
  destruct (splitLastDot_app _ _ _ E) as [Happ Ht]. split; [|right; exact Ht].
  pose proof (lastComponent_free p) as Hf. rewrite Happ in Hf.
  apply freeOf_app in Hf. tauto.
Qed.

Lemma decimal_head (n : N) :
  exists (d : ascii) (rest : string), decimal n = String d rest /\ isDigit d = true.
Proof.
  destruct (decimal_digits n) as [Hne Hd].
  destruct (decimal n) as [|d rest]; [contradiction|].
  rewrite chars_cons in Hd. inversion Hd; subst. eauto.
Qed.

Lemma filename_proper_core (now : N) (originalname : string) :
  properSegment (filename now originalname)
  /\ exists (d : ascii) (rest : string),
      filename now originalname = String d rest /\ isDigit d = true.
Proof.
  assert (Hhead : exists (d : ascii) (rest : string),
             filename now originalname = String d rest /\ isDigit d = true).
  { destruct (decimal_head now) as (d & rest & E & Hd).
    unfold filename. rewrite E. exists d. eexists. split; [reflexivity | exact Hd]. }
  split; [|exact Hhead].
  destruct Hhead as (d & rest & E & Hd). unfold properSegment.
  rewrite E at 1 2 3. repeat split.
  - discriminate.
  - intros H. injection H as -> _. discriminate Hd.
  - intros H. injection H as -> _. discriminate Hd.
  - destruct (filename_base_sanitized_core now originalname) as (Ef & Hb & _).
    rewrite Ef. rewrite !freeOf_app. repeat split.
    + apply (freeOf_class "/" isDigit); [reflexivity | apply decimal_digits].
    + intros [H|[]]. discriminate H.
    + apply (freeOf_class "/" isAlnumOrDash); [reflexivity | exact Hb].
    + apply extname_shape.
Qed.

(** X13.  Whatever the original name, the stored name starts with a digit and
    holds no separator: it is never empty, [.] or [..], and so names an
    entry of the destination directory itself. *)
Theorem filename_proper (now : N) (originalname : string) :
  properSegment (filename now originalname)
  /\ exists (d : ascii) (rest : string),
      filename now originalname = String d rest /\ isDigit d = true.
Proof. intros; eapply filename_proper_core; eassumption. Qed.

Lemma N_to_uint_nonnil (n : N) : N.to_uint n <> Decimal.Nil.
Proof.
  destruct n as [|p]; [discriminate|]. apply DecimalPos.Unsigned.to_uint_nonnil.
Qed.

Lemma decimal_inj (a b : N) : decimal a = decimal b -> a = b.
Proof.
  unfold decimal. intros H. apply DecimalN.Unsigned.to_uint_inj.
  pose proof (NilZero.usu (N.to_uint a) (N_to_uint_nonnil a)) as Ha.
  pose proof (NilZero.usu (N.to_uint b) (N_to_uint_nonnil b)) as Hb.
  rewrite H in Ha. congruence.
Qed.

(** Two digit strings followed by a non-digit: equal texts have equal
    digit strings. *)
Lemma digits_prefix_eq (d1 d2 r1 r2 : string) (c1 c2 : ascii) :
  Forall (fun c => isDigit c = true) (chars d1) ->
  Forall (fun c => isDigit c = true) (chars d2) ->
  isDigit c1 = false -> isDigit c2 = false ->
  d1 ++ String c1 r1 = d2 ++ String c2 r2 ->
  d1 = d2.
Proof.
  intros H1 H2 Hc1 Hc2. revert d2 H2.
  induction d1 as [|x d1 IH]; intros d2 H2 E; destruct d2 as [|y d2].
  - reflexivity.
  - rewrite sapp_nil_l, sapp_cons in E. injection E as -> _.
    rewrite chars_cons in H2. inversion H2; subst. congruence.
  - rewrite sapp_nil_l, sapp_cons in E. injection E as <- _.
    rewrite chars_cons in H1. inversion H1; subst. congruence.
  - rewrite !sapp_cons in E. injection E as -> E.
    rewrite chars_cons in H1, H2. inversion H1; inversion H2; subst.
    f_equal. apply IH; assumption.
Qed.

(** X14.  Names stored at different times differ, whatever the original
    names. *)
Theorem filename_time_injective (t1 t2 : N) (name1 name2 : string) :
  t1 <> t2 -> filename t1 name1 <> filename t2 name2.
Proof.
  intros Hne E. apply Hne, decimal_inj.
  unfold filename in E.
  change ("-" ++ ?x) with (String "-" x) in E.
  eapply digits_prefix_eq; [apply decimal_digits | apply decimal_digits | | | exact E];
    reflexivity.
Qed.

Lemma filename_time_injective_witness :
  filename 1700000000000 "My File.PNG" <> filename 1700000000001 "My File.PNG".
Proof.
  apply (filename_time_injective 1700000000000 1700000000001 "My File.PNG" "My File.PNG").
  discriminate.
Defined.

(** At one time, names that differ only in their punctuation are stored
    under one name. *)
Example filename_collision :
  filename 1700000000000 "a b.png" = filename 1700000000000 "a_b.png".
Proof. reflexivity. Qed.

(** ** [path.join] on proper segments *)

Lemma pushSegment_proper (allow : bool) (stack : list string) (seg : string) :
  properSegment seg -> NodePath.pushSegment allow stack seg = seg :: stack.
Proof.
  intros (H1 & H2 & H3 & _). unfold NodePath.pushSegment.
  apply String.eqb_neq in H1, H2, H3. rewrite H1, H2, H3. reflexivity.
Qed.

Lemma properSegment_nonEmpty (seg : string) : properSegment seg -> nonEmpty seg = true.
Proof. intros (H & _). apply nonEmpty_true, H. Qed.

Lemma pushSegment_quiet (allow : bool) (stack : list string) (seg : string) :
  quietSegment seg ->
  NodePath.pushSegment allow stack seg = if nonEmpty seg then seg :: stack else stack.
Proof.
  intros [->|H]; [reflexivity|].
  rewrite (properSegment_nonEmpty seg H). apply pushSegment_proper, H.
Qed.

Lemma plain_quiet (seg : string) : plainSegment seg -> quietSegment seg.
Proof.
  intros H. destruct seg as [|c seg]; [left; reflexivity|]. right.
  pose proof H as Hall. unfold plainSegment in H. rewrite chars_cons in H.
  inversion H as [|? ? Hc _]; subst.
  repeat split.
  - discriminate.
  - intros E. injection E as -> _. discriminate Hc.
  - intros E. injection E as -> _. discriminate Hc.
  - apply (freeOf_class "/" isLowerAlnum); [reflexivity | exact Hall].
Qed.

Lemma fold_pushSegment_quiet (allow : bool) (segs stack : list string) :
  Forall quietSegment segs ->
  fold_left (NodePath.pushSegment allow) segs stack
  = (rev (List.filter nonEmpty segs) ++ stack)%list.
Proof.
  revert stack. induction segs as [|seg segs IH]; intros stack H; [reflexivity|].
  inversion H; subst. cbn [fold_left List.filter].
  rewrite pushSegment_quiet by assumption. rewrite IH by assumption.
  destruct (nonEmpty seg); [|reflexivity].
  cbn [rev]. rewrite <- app_assoc. reflexivity.
Qed.

Lemma normalizeSegments_app_quiet (allow : bool) (A B : list string) :
  Forall quietSegment B ->
  NodePath.normalizeSegments allow (A ++ B)
  = (NodePath.normalizeSegments allow A ++ List.filter nonEmpty B)%list.
Proof.
  intros HB. unfold NodePath.normalizeSegments.
  rewrite fold_left_app, fold_pushSegment_quiet by assumption.
  rewrite rev_app_distr, rev_involutive. reflexivity.
Qed.

Lemma body_extend (J t : string) :
  J <> "" ->
  join "/" (NodePath.normalizeSegments (negb (NodePath.isAbsolute J)) (splitOn "/" J)) <> "" ->
  Forall quietSegment (splitOn "/" t) ->
  join "/" (NodePath.normalizeSegments
              (negb (NodePath.isAbsolute (J ++ String "/" t)))
              (splitOn "/" (J ++ String "/" t)))
  = join "/" (NodePath.normalizeSegments (negb (NodePath.isAbsolute J)) (splitOn "/" J))
    ++ slashed (List.filter nonEmpty (splitOn "/" t)).
Proof.
  intros HJ Hbody Hq.
  rewrite isAbsolute_app by exact HJ.
  rewrite splitOn_app, normalizeSegments_app_quiet by exact Hq.
  apply join_app_slashed. intros E. rewrite E in Hbody. apply Hbody. reflexivity.
Qed.

(** Appending a path made of quiet segments only adds its non-empty
    segments. *)
Lemma normalize_extend_quiet (J t : string) :
  J <> "" ->
  NodePath.trailingSeparator J = false ->
  join "/" (NodePath.normalizeSegments (negb (NodePath.isAbsolute J)) (splitOn "/" J)) <> "" ->
  t <> "" ->
  Forall quietSegment (splitOn "/" t) ->
  NodePath.normalize (J ++ String "/" t)
  = NodePath.normalize J
    ++ slashed (List.filter nonEmpty (splitOn "/" t))
    ++ (if NodePath.trailingSeparator t then "/" else "").
Proof.
  intros HJ Htr Hbody Ht Hq.
  pose proof (body_extend J t HJ Hbody Hq) as Hb.
  rewrite (normalize_of_body J HJ Hbody), Htr.
  rewrite normalize_of_body.
  - rewrite Hb. rewrite isAbsolute_app by exact HJ.
    rewrite trailingSeparator_app by discriminate.
    change (String "/" t) with ("/" ++ t).
    rewrite trailingSeparator_app by exact Ht.
    rewrite !sapp_assoc, sapp_nil_l. reflexivity.
  - apply sapp_nonempty_l, HJ.
  - rewrite Hb. apply sapp_nonempty_l, Hbody.
Qed.

Lemma lastChar_in (s : string) (c : ascii) : lastChar s = Some c -> In c (chars s).
Proof.
  induction s as [|x s IH]; [discriminate|]. cbn [lastChar]. rewrite chars_cons.
  destruct s as [|y s].
  - intros E. injection E as ->. left. reflexivity.
  - intros E. right. apply IH, E.
Qed.

Lemma isSlash_eq (c : ascii) : isSlash c = true -> c = "/"%char.
Proof. by_cases_on_char c. Qed.

Lemma trailingSeparator_free (s : string) :
  freeOf "/" s -> NodePath.trailingSeparator s = false.
Proof.
  intros H. unfold NodePath.trailingSeparator.
  destruct (lastChar s) as [c|] eqn:E; [|reflexivity].
  destruct (isSlash c) eqn:Es; [|reflexivity].
  apply isSlash_eq in Es. subst c. exfalso. apply H, lastChar_in, E.
Qed.

(** *** Stacks that survive a second normalization *)

Lemma pushSegment_cases (allow : bool) (stack : list string) (seg : string) :
  NodePath.pushSegment allow stack seg = stack
  \/ (NodePath.pushSegment allow stack seg = seg :: stack /\ seg <> "" /\ seg <> ".")
  \/ (exists top : string,
         stack = top :: NodePath.pushSegment allow stack seg /\ top <> "..").
Proof.
  unfold NodePath.pushSegment.
  destruct (String.eqb seg "") eqn:E1; [left; reflexivity|].
  destruct (String.eqb seg ".") eqn:E2; [left; reflexivity|].
  apply String.eqb_neq in E1, E2. cbn [orb].
  destruct (String.eqb seg "..") eqn:E3; [|right; left; auto].
  apply String.eqb_eq in E3. subst seg.
  destruct stack as [|top rest].
  - destruct allow; [right; left; auto | left; reflexivity].
  - destruct (String.eqb top "..") eqn:E4.
    + destruct allow; [right; left; auto | left; reflexivity].
    + right. right. exists top. split; [reflexivity|]. apply String.eqb_neq, E4.
Qed.

Lemma goodStack_nil (allow : bool) : goodStack allow [].
Proof. split; [reflexivity | constructor]. Qed.

Lemma goodStack_push (allow : bool) (stack : list string) (seg : string) :
  freeOf "/" seg -> goodStack allow stack ->
  goodStack allow (NodePath.pushSegment allow stack seg).
Proof.
  intros Hfree [Hre Hall].
  destruct (pushSegment_cases allow stack seg) as [E|[(E & H1 & H2)|(top & E & Htop)]].
  - rewrite E. split; assumption.
  - rewrite E. split.
    + cbn [rev]. rewrite fold_left_app, Hre. cbn [fold_left]. exact E.
    + constructor; [repeat split; assumption | exact Hall].
  - rewrite E in Hre, Hall. inversion Hall as [|? ? Hk Hrest]; subst.
    split; [|exact Hrest].
    cbn [rev] in Hre. rewrite fold_left_app in Hre. cbn [fold_left] in Hre.
    destruct Hk as (K1 & K2 & K3).
    rewrite pushSegment_proper in Hre by (repeat split; assumption).
    injection Hre as Hre. exact Hre.
Qed.

Lemma goodStack_fold (allow : bool) (segs stack : list string) :
  Forall (freeOf "/") segs -> goodStack allow stack ->
  goodStack allow (fold_left (NodePath.pushSegment allow) segs stack).
Proof.
  revert stack. induction segs as [|seg segs IH]; intros stack H G; [exact G|].
  inversion H; subst. cbn [fold_left]. apply IH; [assumption|].
  apply goodStack_push; assumption.
Qed.

Lemma normalizeSegments_good (allow : bool) (p : string) :
  goodStack allow (rev (NodePath.normalizeSegments allow (splitOn "/" p))).
Proof.
  unfold NodePath.normalizeSegments. rewrite rev_involutive.
  apply goodStack_fold; [apply splitOn_pieces_free | apply goodStack_nil].
Qed.

Lemma splitOn_normal (abs tr : bool) (SA : list string) :
  SA <> [] ->
  Forall (freeOf "/") SA ->
  splitOn "/" ((if abs then "/" else "") ++ join "/" SA ++ (if tr then "/" else ""))
  = ((if abs then [""] else []) ++ SA ++ (if tr then [""] else []))%list.
Proof.
  intros Hne Hfree.
  assert (Htail : splitOn "/" (join "/" SA ++ (if tr then "/" else ""))
                  = (SA ++ (if tr then [""] else []))%list).
  { destruct tr.
    - rewrite (splitOn_app "/" (join "/" SA) ""), (splitOn_join "/" SA Hne Hfree).
      reflexivity.
    - rewrite sapp_nil_r, app_nil_r. apply (splitOn_join "/" SA Hne Hfree). }
  destruct abs.
  - change ("/" ++ join "/" SA ++ (if tr then "/" else ""))
      with ("" ++ String "/" (join "/" SA ++ (if tr then "/" else ""))).
    rewrite splitOn_app, Htail. reflexivity.
  - rewrite sapp_nil_l. exact Htail.
Qed.

Lemma keptSegment_free (st : list string) :
  Forall keptSegment st -> Forall (freeOf "/") st.
Proof. apply List.Forall_impl. intros s (_ & _ & H). exact H. Qed.

Lemma isAbsolute_relative_body (SA : list string) (rest : string) :
  SA <> [] -> Forall keptSegment SA ->
  NodePath.isAbsolute (join "/" SA ++ rest) = false.
Proof.
  intros Hne H. destruct SA as [|x SA]; [contradiction|].
  inversion H as [|? ? (Hx & _ & Hfree) _]; subst.
  rewrite join_cons_slashed. destruct x as [|c x]; [contradiction|].
  apply freeOf_cons in Hfree. destruct Hfree as [Hc _].
  rewrite !sapp_cons. unfold NodePath.isAbsolute. cbn [startsWith].
  destruct (Ascii.eqb "/" c) eqn:E; [|reflexivity].
  apply Ascii.eqb_eq in E. congruence.
Qed.

(** A path in normal form, split and normalized again, gives the
    segments it was built from. *)
Lemma normalizeSegments_normal (p : string) :
  p <> "" ->
  join "/" (NodePath.normalizeSegments (negb (NodePath.isAbsolute p)) (splitOn "/" p)) <> "" ->
  NodePath.isAbsolute (NodePath.normalize p) = NodePath.isAbsolute p
  /\ NodePath.normalizeSegments (negb (NodePath.isAbsolute p))
       (splitOn "/" (NodePath.normalize p))
     = NodePath.normalizeSegments (negb (NodePath.isAbsolute p)) (splitOn "/" p).
Proof.
  intros Hp Hbody.
  set (allow := negb (NodePath.isAbsolute p)) in *.
  set (SA := NodePath.normalizeSegments allow (splitOn "/" p)) in *.
  destruct (normalizeSegments_good allow p) as [Hre Hkept]. fold SA in Hre, Hkept.
  assert (HkSA : Forall keptSegment SA).
  { apply List.Forall_forall. intros x Hx. rewrite List.Forall_forall in Hkept.
    apply Hkept. apply in_rev. rewrite rev_involutive. exact Hx. }
  assert (Hne : SA <> []) by (intros E; rewrite E in Hbody; apply Hbody; reflexivity).
  rewrite (normalize_of_body p Hp Hbody). fold allow. fold SA. split.
  - destruct (NodePath.isAbsolute p); [reflexivity|].
    rewrite sapp_nil_l. apply isAbsolute_relative_body; assumption.
  - rewrite splitOn_normal by (try assumption; apply keptSegment_free, HkSA).
    unfold NodePath.normalizeSegments at 1.
    rewrite !fold_left_app.
    assert (H0 : fold_left (NodePath.pushSegment allow)
                           (if NodePath.isAbsolute p then [""] else []) [] = []).
    { destruct (NodePath.isAbsolute p); reflexivity. }
    rewrite H0. rewrite rev_involutive in Hre.
    rewrite Hre.
    destruct (NodePath.trailingSeparator p); cbn [fold_left]; apply rev_involutive.
Qed.

(** [path.join(path.normalize(p), name)] is [path.normalize(p/name)]:
    joining a proper segment to a normalized path is the same as
    joining first and normalizing once. *)
Lemma normalize_child (p name : string) :
  p <> "" ->
  join "/" (NodePath.normalizeSegments (negb (NodePath.isAbsolute p)) (splitOn "/" p)) <> "" ->
  properSegment name ->
  NodePath.pathJoin [NodePath.normalize p; name]
  = NodePath.normalize (p ++ String "/" name).
Proof.
  intros Hp Hbody Hname.
  destruct (normalizeSegments_normal p Hp Hbody) as [Habs Hseg].
  assert (HN : NodePath.normalize p <> "").
  { rewrite (normalize_of_body p Hp Hbody). apply sapp_nonempty_r, sapp_nonempty_l, Hbody. }
  assert (Hn1 : name <> "") by apply Hname.
  assert (Hfree : freeOf "/" name) by apply Hname.
  assert (Hq : Forall quietSegment (splitOn "/" name)).
  { rewrite splitOn_free by exact Hfree.
    constructor; [right; exact Hname | constructor]. }
  rewrite pathJoin_two by exact Hn1. unfold joinedUnder.
  apply nonEmpty_true in HN as HN'. rewrite HN'.
  assert (Hb1 : join "/" (NodePath.normalizeSegments
                            (negb (NodePath.isAbsolute (NodePath.normalize p ++ String "/" name)))
                            (splitOn "/" (NodePath.normalize p ++ String "/" name)))
                = join "/" (NodePath.normalizeSegments (negb (NodePath.isAbsolute p))
                                                      (splitOn "/" p))
                  ++ slashed (List.filter nonEmpty (splitOn "/" name))).
  { rewrite isAbsolute_app by exact HN. rewrite Habs.
    rewrite splitOn_app, normalizeSegments_app_quiet by exact Hq.
    rewrite Hseg. apply join_app_slashed.
    intros E. rewrite E in Hbody. apply Hbody. reflexivity. }
  pose proof (body_extend p name Hp Hbody Hq) as Hb2.
  rewrite (normalize_of_body (NodePath.normalize p ++ String "/" name));
    [|apply sapp_nonempty_l, HN | rewrite Hb1; apply sapp_nonempty_l, Hbody].
  rewrite (normalize_of_body (p ++ String "/" name));
    [|apply sapp_nonempty_l, Hp | rewrite Hb2; apply sapp_nonempty_l, Hbody].
  rewrite Hb1, Hb2.
  rewrite !isAbsolute_app by assumption. rewrite Habs.
  change (String "/" name) with ("/" ++ name).
  rewrite !trailingSeparator_app by (discriminate || assumption).
  reflexivity.
Qed.

(** ** Where an upload ends up *)

Lemma uploadJoined_ready (cfg : Config) :
  joinedUnder (dirname cfg) "../public/uploads" <> ""
  /\ NodePath.trailingSeparator (joinedUnder (dirname cfg) "../public/uploads") = false
  /\ join "/" (NodePath.normalizeSegments
                 (negb (NodePath.isAbsolute (joinedUnder (dirname cfg) "../public/uploads")))
                 (splitOn "/" (joinedUnder (dirname cfg) "../public/uploads"))) <> "".
Proof.
  pose proof (joinedUnder_ready (dirname cfg) "../public" "uploads"
                                (proj2 plain_public)) as H.
  apply H. discriminate.
Qed.

(** *** From code units to path strings *)

Lemma chars_of_list (l : list ascii) : chars (string_of_list_ascii l) = l.
Proof. unfold chars. apply list_ascii_of_string_of_list_ascii. Qed.

Lemma pathText_chars (t : text) : chars (pathText t) = List.map ascii_of_N t.
Proof. unfold pathText. apply chars_of_list. Qed.

Lemma unitClasses_of_char (c : ascii) :
  isAlnumU (N_of_ascii c) = isAlnum c
  /\ isSlashU (N_of_ascii c) = isSlash c
  /\ isLowerAlnumU (N_of_ascii c) = isLowerAlnum c.
Proof. by_cases_on_char c. Qed.

Lemma keptUnit_ascii (u : N) : isAlnumU u || isSlashU u = true -> (u < 128)%N.
Proof.
  unfold isAlnumU, isLowerU, isUpperU, isDigitU, isSlashU, betweenU.
  intros H. repeat (apply orb_true_iff in H; destruct H as [H|H]);
    try (apply andb_true_iff in H; destruct H as [_ H]; apply N.leb_le in H; lia).
  apply N.eqb_eq in H. lia.
Qed.

Lemma unit_as_char (u : N) : (u < 128)%N -> N_of_ascii (ascii_of_N u) = u.
Proof. intros H. apply N_ascii_embedding. lia. Qed.

Lemma keptUnit_char (u : N) :
  isAlnumU u || isSlashU u = true ->
  isAlnum (ascii_of_N u) || isSlash (ascii_of_N u) = true
  /\ isAlnum (ascii_of_N u) = isAlnumU u
  /\ negb (Ascii.eqb (ascii_of_N u) "/") = isAlnumU u.
Proof.
  intros H. pose proof (unit_as_char u (keptUnit_ascii u H)) as E.
  destruct (unitClasses_of_char (ascii_of_N u)) as (Ha & Hs & _).
  rewrite E in Ha, Hs. rewrite Ha, Hs in H. rewrite Ha.
  split; [exact H|]. split; [reflexivity|].
  revert H. generalize (ascii_of_N u). intros c. by_cases_on_char c.
Qed.

Lemma pathUnit_char (u : N) :
  isPathUnit u = true -> isPathChar (ascii_of_N u) = true.
Proof.
  intros H. pose proof (unit_as_char u (pathUnit_ascii u H)) as E.
  destruct (unitClasses_of_char (ascii_of_N u)) as (_ & Hs & Hl).
  rewrite E in Hs, Hl. unfold isPathChar. rewrite <- Hs, <- Hl. exact H.
Qed.

(** The normalized path as a string holds letters, digits and [/]. *)
Lemma normalizedPath_chars (toLowerCase : text -> text) (userPath : text) :
  Forall (fun c => isAlnum c || isSlash c = true)
         (chars (pathText (normalizedPath toLowerCase userPath))).
Proof.
  rewrite pathText_chars. apply Forall_map.
  eapply List.Forall_impl; [|apply normalizedPath_kept].
  intros u Hu. apply keptUnit_char, Hu.
Qed.

(** Nothing is lost when the normalized path is taken as a path
    string: its code units are ASCII. *)
Lemma normalizedPath_faithful (toLowerCase : text -> text) (userPath : text) :
  unitsOf (pathText (normalizedPath toLowerCase userPath))
  = normalizedPath toLowerCase userPath.
Proof.
  unfold unitsOf. rewrite pathText_chars, List.map_map.
  pose proof (normalizedPath_kept toLowerCase userPath) as H.
  induction H as [|u t Hu _ IH]; [reflexivity|]. cbn [List.map].
  rewrite IH, (unit_as_char u (keptUnit_ascii u Hu)). reflexivity.
Qed.

Lemma normalizedPath_pathChars (toLowerCase : text -> text) (userPath : text) :
  noUpperCase toLowerCase ->
  Forall (fun c => isPathChar c = true)
         (chars (pathText (normalizedPath toLowerCase userPath))).
Proof.
  intros Hlaw. rewrite pathText_chars. apply Forall_map.
  eapply List.Forall_impl; [|apply normalizedPath_pathUnits, Hlaw].
  intros u Hu. apply pathUnit_char, Hu.
Qed.

Lemma alnumOrSlash_segment_char (c : ascii) :
  isAlnum c || isSlash c = true -> Ascii.eqb c "/" = false -> isAlnum c = true.
Proof. by_cases_on_char c. Qed.

Lemma splitOn_alnum (s : string) :
  Forall (fun c => isAlnum c || isSlash c = true) (chars s) ->
  Forall alnumSegment (splitOn "/" s).
Proof.
  induction s as [|c s IH]; intros H.
  - repeat constructor.
  - rewrite chars_cons in H. inversion H as [|? ? Hc Hs]; subst.
    specialize (IH Hs). cbn [splitOn].
    destruct (Ascii.eqb c "/") eqn:E.
    + constructor; [constructor | exact IH].
    + pose proof (splitOn_not_nil "/" s) as Hn.
      destruct (splitOn "/" s) as [|p ps]; [contradiction|].
      inversion IH; subst. constructor; [|assumption].
      unfold alnumSegment. rewrite chars_cons. constructor; [|assumption].
      apply alnumOrSlash_segment_char; assumption.
Qed.

Lemma alnum_quiet (seg : string) : alnumSegment seg -> quietSegment seg.
Proof.
  intros H. destruct seg as [|c seg]; [left; reflexivity|]. right.
  pose proof H as Hall. unfold alnumSegment in H. rewrite chars_cons in H.
  inversion H as [|? ? Hc _]; subst.
  repeat split.
  - discriminate.
  - intros E. injection E as -> _. discriminate Hc.
  - intros E. injection E as -> _. discriminate Hc.
  - apply (freeOf_class "/" isAlnum); [reflexivity | exact Hall].
Qed.

Lemma normalizedPath_quiet (toLowerCase : text -> text) (userPath : text) :
  Forall quietSegment (splitOn "/" (pathText (normalizedPath toLowerCase userPath))).
Proof.
  eapply List.Forall_impl; [|apply splitOn_alnum, normalizedPath_chars].
  apply alnum_quiet.
Qed.

(** [path.join(__dirname, "../public/uploads", np)] for a path [np] of
    quiet segments. *)
Lemma joined_formula (cfg : Config) (np : string) :
  Forall quietSegment (splitOn "/" np) ->
  NodePath.pathJoin [dirname cfg; "../public/uploads"; np]
  = uploadRoot cfg ++ slashed (List.filter nonEmpty (splitOn "/" np))
    ++ (if NodePath.trailingSeparator np then "/" else "").
Proof.
  intros Hq. unfold uploadRoot.
  destruct (string_dec np "") as [E|E].
  - rewrite E, pathJoin_three_empty. cbn. rewrite sapp_nil_r. reflexivity.
  - rewrite pathJoin_two, pathJoin_three by (discriminate || exact E).
    destruct (uploadJoined_ready cfg) as (HJ & Htr & Hbody).
    apply normalize_extend_quiet; assumption.
Qed.

Lemma joined_child_formula (cfg : Config) (np name : string) :
  Forall quietSegment (splitOn "/" np) ->
  properSegment name ->
  NodePath.pathJoin [NodePath.pathJoin [dirname cfg; "../public/uploads"; np]; name]
  = uploadRoot cfg ++ slashed (List.filter nonEmpty (splitOn "/" np)) ++ "/" ++ name.
Proof.
  intros Hq Hname.
  assert (Hn1 : name <> "") by apply Hname.
  assert (Hfree : freeOf "/" name) by apply Hname.
  destruct (uploadJoined_ready cfg) as (HJ & Htr & Hbody).
  unfold uploadRoot.
  destruct (string_dec np "") as [E|E].
  - rewrite E, pathJoin_three_empty.
    rewrite !(pathJoin_two (dirname cfg) "../public/uploads") by discriminate.
    rewrite normalize_child by assumption.
    rewrite normalize_extend_quiet; try assumption.
    + rewrite splitOn_free by exact Hfree. cbn [List.filter splitOn slashed].
      rewrite (properSegment_nonEmpty name Hname), trailingSeparator_free by exact Hfree.
      cbn [slashed]. rewrite !sapp_nil_r. reflexivity.
    + rewrite splitOn_free by exact Hfree. constructor; [right; exact Hname | constructor].
  - rewrite (pathJoin_two (dirname cfg) "../public/uploads") by discriminate.
    rewrite (pathJoin_three (dirname cfg) "../public/uploads") by (discriminate || exact E).
    rewrite normalize_child; try assumption.
    + rewrite sapp_assoc, sapp_cons.
      rewrite normalize_extend_quiet; try assumption.
      * rewrite splitOn_app, (splitOn_free "/" name Hfree), List.filter_app.
        cbn [List.filter]. rewrite (properSegment_nonEmpty name Hname).
        rewrite slashed_app. cbn [slashed].
        change (String "/" name) with ("/" ++ name).
        rewrite !trailingSeparator_app by (discriminate || exact Hn1).
        rewrite trailingSeparator_free by exact Hfree.
        rewrite !sapp_nil_r. reflexivity.
      * apply sapp_nonempty_l, E.
      * rewrite splitOn_app, (splitOn_free "/" name Hfree).
        apply Forall_app. split; [exact Hq|].
        constructor; [right; exact Hname | constructor].
    + apply sapp_nonempty_l, HJ.
    + rewrite (body_extend _ _ HJ Hbody Hq). apply sapp_nonempty_l, Hbody.
Qed.

Lemma uploadPath_formula (cfg : Config) (toLowerCase : text -> text) (userPath : text) :
  uploadPathOf cfg toLowerCase userPath
  = uploadRoot cfg ++ slashed (resolvedSegments toLowerCase userPath)
    ++ (if NodePath.trailingSeparator (pathText (normalizedPath toLowerCase userPath))
        then "/" else "").
Proof. apply joined_formula, normalizedPath_quiet. Qed.

Lemma storedPath_formula (cfg : Config) (toLowerCase : text -> text)
      (userPath : text) (name : string) :
  properSegment name ->
  NodePath.pathJoin [uploadPathOf cfg toLowerCase userPath; name]
  = uploadRoot cfg ++ slashed (resolvedSegments toLowerCase userPath) ++ "/" ++ name.
Proof. apply joined_child_formula, normalizedPath_quiet. Qed.

Lemma uploadPath_within_root (cfg : Config) (toLowerCase : text -> text)
      (userPath : text) :
  isWithin (uploadRoot cfg) (uploadPathOf cfg toLowerCase userPath) = true.
Proof.
  rewrite uploadPath_formula. apply isWithin_extension, slashed_tail_shape.
Qed.

(** *** The resolver *)

Lemma mkdirChain_trace (p : string) (chain : list string) (w : World) :
  trace (fst (mkdirChain p chain w)) = trace w.
Proof.
  revert w. induction chain as [|d chain IH]; intros w; [reflexivity|].
  cbn [mkdirChain].
  repeat match goal with
         | |- context [if ?b then _ else _] => destruct b
         end; try reflexivity; rewrite IH; reflexivity.
Qed.

Lemma mkdirChain_files (p : string) (chain : list string) (w : World) :
  files (fst (mkdirChain p chain w)) = files w.
Proof.
  revert w. induction chain as [|d chain IH]; intros w; [reflexivity|].
  cbn [mkdirChain].
  repeat match goal with
         | |- context [if ?b then _ else _] => destruct b
         end; try reflexivity; rewrite IH; reflexivity.
Qed.

Lemma mkdirChain_lowerCase (p : string) (chain : list string) (w : World) :
  lowerCase (fst (mkdirChain p chain w)) = lowerCase w.
Proof.
  revert w. induction chain as [|d chain IH]; intros w; [reflexivity|].
  cbn [mkdirChain].
  repeat match goal with
         | |- context [if ?b then _ else _] => destruct b
         end; try reflexivity; rewrite IH; reflexivity.
Qed.

Lemma userPath_cases (bodyPath : PathValue) (req : Request) :
  (exists u : text, userPathOf bodyPath req = PathText u)
  \/ userPathOf bodyPath req = PathStructured.
Proof.
  unfold userPathOf, orPath.
  destruct bodyPath as [|[|? ?]|], (queryPath req) as [|[|? ?]|]; cbn; eauto.
Qed.

Lemma destination_text (cfg : Config) (bodyPath : PathValue) (req : Request)
      (w : World) (u : text) :
  userPathOf bodyPath req = PathText u ->
  destination cfg bodyPath req w
  = (fst (mkdirRecursive (uploadPathOf cfg (lowerCase w) u) w),
     Callback (match snd (mkdirRecursive (uploadPathOf cfg (lowerCase w) u) w) with
               | Some _ => inl (mkError "Failed to create directory.")
               | None => inr (uploadPathOf cfg (lowerCase w) u)
               end)).
Proof.
  intros E. unfold destination. rewrite E.
  destruct (mkdirRecursive _ w) as [w' [e|]]; reflexivity.
Qed.

Lemma destination_structured (cfg : Config) (bodyPath : PathValue) (req : Request)
      (w : World) :
  userPathOf bodyPath req = PathStructured ->
  destination cfg bodyPath req w
  = (w, Threw (mkError "userPath.toLowerCase is not a function")).
Proof. intros E. unfold destination. rewrite E. reflexivity. Qed.

(** The user path [../../etc] given in the query: the directory handed
    to the callback is [etc] below the upload root. *)
Example destination_traversal :
  snd (destination sampleConfig PathUndefined
         (uploadRequest (Some "s3cret") (VString "../../etc") (Some [])) sampleWorld)
  = Callback (inr "/srv/app/public/uploads/etc").
Proof. vm_compute. reflexivity. Qed.

(** A directory name of 256 letters cannot be created; the directory
    before it in the path has been created by then, and stays. *)
Example destination_fails_part_way :
  let out := destination sampleConfig PathUndefined
               (mkRequest (Some "s3cret")
                          (PathText (unitsOf "new/" ++ List.repeat 97%N 256)%list)
                          VUndefined (Some []) FilesUndefined)
               sampleWorld in
  snd out = Callback (inl (mkError "Failed to create directory."))
  /\ isDir "/srv/app/public/uploads/new" (fst out) = true
  /\ isDir "/srv/app/public/uploads/new" sampleWorld = false.
Proof. vm_compute. repeat split. Qed.


Lemma splitOn_flat (sep : ascii) (s : string) :
  flat_map chars (splitOn sep s)
  = List.filter (fun c => negb (Ascii.eqb c sep)) (chars s).
Proof.
  induction s as [|c s IH]; [reflexivity|].
  cbn [splitOn]. rewrite chars_cons. cbn [List.filter].
  pose proof (splitOn_not_nil sep s) as Hn.
  destruct (Ascii.eqb c sep); cbn [negb].
  - cbn [flat_map]. exact IH.
  - destruct (splitOn sep s) as [|p ps]; [contradiction|].
    cbn [flat_map] in *. rewrite chars_cons. cbn [app]. rewrite IH. reflexivity.
Qed.

Lemma flat_map_chars_nonEmpty (l : list string) :
  flat_map chars (List.filter nonEmpty l) = flat_map chars l.
Proof.
  induction l as [|s l IH]; [reflexivity|]. cbn [List.filter flat_map].
  destruct s as [|c s]; [exact IH|].
  change (nonEmpty (String c s)) with true. cbn [flat_map]. rewrite IH. reflexivity.
Qed.

Lemma filter_ext_Forall {A : Type} (f g : A -> bool) (P : A -> Prop) (l : list A) :
  (forall x, P x -> f x = g x) -> Forall P l -> List.filter f l = List.filter g l.
Proof.
  intros H Hl. induction Hl as [|x l Hx _ IH]; [reflexivity|].
  cbn [List.filter]. rewrite (H x Hx), IH. reflexivity.
Qed.

Lemma filter_map_units (f : ascii -> bool) (g : N -> bool) (t : text) :
  Forall (fun u => f (ascii_of_N u) = g u) t ->
  List.filter f (List.map ascii_of_N t) = List.map ascii_of_N (List.filter g t).
Proof.
  intros H. induction H as [|u t Hu _ IH]; [reflexivity|].
  cbn [List.map List.filter]. rewrite Hu, IH. destruct (g u); reflexivity.
Qed.

Lemma resolvedSegments_proper (toLowerCase : text -> text) (userPath : text) :
  Forall alnumSegment (resolvedSegments toLowerCase userPath)
  /\ Forall properSegment (resolvedSegments toLowerCase userPath).
Proof.
  unfold resolvedSegments.
  pose proof (splitOn_alnum _ (normalizedPath_chars toLowerCase userPath)) as H.
  induction H as [|seg segs Hseg _ IH]; [split; constructor|].
  cbn [List.filter]. destruct (nonEmpty seg) eqn:E; [|exact IH].
  destruct IH as [IH1 IH2]. split; constructor; try assumption.
  destruct (alnum_quiet seg Hseg) as [->|Hp]; [discriminate E | exact Hp].
Qed.

Lemma resolvedSegments_plain (toLowerCase : text -> text) (userPath : text) :
  noUpperCase toLowerCase ->
  Forall plainSegment (resolvedSegments toLowerCase userPath).
Proof.
  intros Hlaw. unfold resolvedSegments.
  pose proof (splitOn_plain _ (normalizedPath_pathChars toLowerCase userPath Hlaw)) as H.
  induction H as [|seg segs Hseg _ IH]; [constructor|].
  cbn [List.filter]. destruct (nonEmpty seg); [constructor; assumption | exact IH].
Qed.

Lemma resolvedSegments_flat (toLowerCase : text -> text) (userPath : text) :
  flat_map chars (resolvedSegments toLowerCase userPath)
  = List.map ascii_of_N (List.filter isAlnumU (toLowerCase userPath)).
Proof.
  unfold resolvedSegments. rewrite flat_map_chars_nonEmpty, splitOn_flat.
  rewrite pathText_chars.
  rewrite (filter_map_units _ isAlnumU).
  - rewrite (proj2 (normalizedPath_of_lowered toLowerCase userPath)). reflexivity.
  - eapply List.Forall_impl; [|apply normalizedPath_kept].
    intros u Hu. apply keptUnit_char, Hu.
Qed.

(** X10.  The directories created for a user path spell exactly the
    letters and digits of the lower-cased path, in order; each
    directory name is a non-empty word of lower-case letters and
    digits. *)
Theorem resolvedSegments_spell (toLowerCase : text -> text) (userPath : text) :
  noUpperCase toLowerCase ->
  flat_map chars (resolvedSegments toLowerCase userPath)
  = List.map ascii_of_N (List.filter isAlnumU (toLowerCase userPath))
  /\ Forall plainSegment (resolvedSegments toLowerCase userPath)
  /\ Forall (fun seg => seg <> "") (resolvedSegments toLowerCase userPath).
Proof.
  intros Hlaw. split; [|split].
  - apply resolvedSegments_flat.
  - apply resolvedSegments_plain, Hlaw.
  - eapply List.Forall_impl; [|apply resolvedSegments_proper].
    intros seg H. apply H.
Qed.

(** The path [Docs/], U+212A, [.], U+0130: the Kelvin sign names the
    directory [k], U+0130 the directory [i]. *)
Lemma resolvedSegments_spell_witness :
  noUpperCase sampleLowerCase
  /\ resolvedSegments sampleLowerCase [68; 111; 99; 115; 47; 8490; 46; 304]%N
     = ["docs"; "k"; "i"]
  /\ flat_map chars (resolvedSegments sampleLowerCase
                                      [68; 111; 99; 115; 47; 8490; 46; 304]%N)
     = chars "docski".
Proof.
  split; [exact sampleLowerCase_noUpperCase|]. split; [reflexivity|].
  apply (resolvedSegments_spell sampleLowerCase [68; 111; 99; 115; 47; 8490; 46; 304]%N
                                sampleLowerCase_noUpperCase).
Defined.

Lemma stored_file_location_aux (cfg : Config) (toLowerCase : text -> text)
      (userPath : text) (now : N) (originalname : string) :
  NodePath.pathJoin [uploadPathOf cfg toLowerCase userPath;
                     filename now originalname]
  = uploadRoot cfg ++ slashed (resolvedSegments toLowerCase userPath)
    ++ "/" ++ filename now originalname
  /\ isWithin (uploadRoot cfg)
              (NodePath.pathJoin [uploadPathOf cfg toLowerCase userPath;
                                  filename now originalname]) = true.
Proof.
  pose proof (storedPath_formula cfg toLowerCase userPath (filename now originalname)
                (proj1 (filename_proper_core now originalname))) as E.
  split; [exact E|]. rewrite E. apply isWithin_extension. right.
  destruct (resolvedSegments toLowerCase userPath) as [|s segs]; eexists.
  - reflexivity.
  - cbn [slashed]. rewrite !sapp_assoc. reflexivity.
Qed.

(** X15.  The file stored for a part lies in the directory that the user
    path names below the upload root, under the derived name; it is
    inside the upload root whatever the user path, the lower-casing and
    the original name. *)
Theorem stored_file_location (cfg : Config) (toLowerCase : text -> text)
        (userPath : text) (now : N) (originalname : string) :
  NodePath.pathJoin [uploadPathOf cfg toLowerCase userPath;
                     filename now originalname]
  = uploadRoot cfg ++ slashed (resolvedSegments toLowerCase userPath)
    ++ "/" ++ filename now originalname
  /\ isWithin (uploadRoot cfg)
              (NodePath.pathJoin [uploadPathOf cfg toLowerCase userPath;
                                  filename now originalname]) = true.
Proof.
  exact (stored_file_location_aux cfg toLowerCase userPath now originalname).
Qed.

(** X11.  A user path whose lower-cased form holds no letter or digit
    names no directory: the file is stored directly in the upload
    root. *)
Theorem no_alnum_stored_at_root (cfg : Config) (toLowerCase : text -> text)
        (userPath : text) (now : N) (originalname : string) :
  List.filter isAlnumU (toLowerCase userPath) = [] ->
  resolvedSegments toLowerCase userPath = []
  /\ NodePath.pathJoin [uploadPathOf cfg toLowerCase userPath;
                        filename now originalname]
     = uploadRoot cfg ++ "/" ++ filename now originalname.
Proof.
  intros H.
  assert (E : resolvedSegments toLowerCase userPath = []).
  { pose proof (resolvedSegments_flat toLowerCase userPath) as Hsp.
    pose proof (proj2 (resolvedSegments_proper toLowerCase userPath)) as Hne.
    rewrite H in Hsp.
    destruct (resolvedSegments toLowerCase userPath) as [|seg segs]; [reflexivity|].
    inversion Hne as [|? ? Hseg _]; subst. destruct seg as [|c seg].
    - destruct Hseg as [Hseg _]. contradiction.
    - cbn [flat_map] in Hsp. rewrite chars_cons in Hsp. discriminate Hsp. }
  split; [exact E|].
  rewrite (proj1 (stored_file_location_aux cfg toLowerCase userPath now originalname)), E.
  reflexivity.
Qed.

Lemma no_alnum_stored_at_root_witness :
  resolvedSegments sampleLowerCase (unitsOf "../..") = []
  /\ NodePath.pathJoin [uploadPathOf sampleConfig sampleLowerCase (unitsOf "../..");
                        filename 1700000000000 "a.png"]
     = uploadRoot sampleConfig ++ "/" ++ filename 1700000000000 "a.png".
Proof.
  apply (no_alnum_stored_at_root sampleConfig sampleLowerCase (unitsOf "../..")
                                 1700000000000 "a.png").
  reflexivity.
Defined.

(** A user path without ASCII letter or digit can still name a
    directory: the Kelvin sign U+212A is lower-cased to [k]. *)
Example kelvin_stored_under_k :
  NodePath.pathJoin [uploadPathOf sampleConfig sampleLowerCase [8490%N];
                     filename 1700000000000 "a.png"]
  = "/srv/app/public/uploads/k/1700000000000-a.png".
Proof. vm_compute. reflexivity. Qed.

(** ** The path an upload answers with, and deleting by it *)

Lemma substring_all (s : string) : String.substring 0 (String.length s) s = s.
Proof. induction s as [|c s IH]; [reflexivity|]. cbn. rewrite IH. reflexivity. Qed.

Lemma dropStart_app (a b : string) : dropStart (String.length a) (a ++ b) = b.
Proof.
  unfold dropStart. rewrite slength_app.
  replace (String.length a + String.length b - String.length a) with (String.length b) by lia.
  induction a as [|c a IH]; [apply substring_all|].
  rewrite sapp_cons. cbn [String.length String.substring]. exact IH.
Qed.

Lemma replaceFirst_unfold (pat rep s : string) :
  replaceFirst pat rep s
  = if startsWith s pat then rep ++ dropStart (String.length pat) s
    else match s with
         | EmptyString => EmptyString
         | String c t => String c (replaceFirst pat rep t)
         end.
Proof. destruct s; reflexivity. Qed.

Lemma replaceFirst_prefix (pat rep rest : string) :
  replaceFirst pat rep (pat ++ rest) = rep ++ rest.
Proof. rewrite replaceFirst_unfold, startsWith_app, dropStart_app. reflexivity. Qed.

Lemma splitOn_slashed (x : string) (segs : list string) :
  freeOf "/" x -> Forall (freeOf "/") segs ->
  splitOn "/" (x ++ slashed segs) = x :: segs.
Proof.
  intros Hx H. revert x Hx. induction H as [|y segs Hy _ IH]; intros x Hx.
  - cbn [slashed]. rewrite sapp_nil_r. apply splitOn_free, Hx.
  - cbn [slashed]. change ("/" ++ y ++ slashed segs) with (String "/" (y ++ slashed segs)).
    rewrite splitOn_app, (splitOn_free "/" x Hx), (IH y Hy). reflexivity.
Qed.

Lemma filter_nonEmpty_proper (segs : list string) :
  Forall properSegment segs -> List.filter nonEmpty segs = segs.
Proof.
  intros H. induction H as [|s segs Hs _ IH]; [reflexivity|].
  cbn [List.filter]. rewrite (properSegment_nonEmpty s Hs), IH. reflexivity.
Qed.

Lemma properSegment_free (segs : list string) :
  Forall properSegment segs -> Forall (freeOf "/") segs.
Proof. apply List.Forall_impl. intros s H. apply H. Qed.

Lemma properSegment_quiet (segs : list string) :
  Forall properSegment segs -> Forall quietSegment segs.
Proof. apply List.Forall_impl. intros s H. right. exact H. Qed.

Lemma publicJoined_ready (cfg : Config) :
  joinedUnder (dirname cfg) "../public" <> ""
  /\ NodePath.trailingSeparator (joinedUnder (dirname cfg) "../public") = false
  /\ join "/" (NodePath.normalizeSegments
                 (negb (NodePath.isAbsolute (joinedUnder (dirname cfg) "../public")))
                 (splitOn "/" (joinedUnder (dirname cfg) "../public"))) <> "".
Proof.
  pose proof (joinedUnder_ready (dirname cfg) ".." "public" (proj1 plain_public)) as H.
  apply H. discriminate.
Qed.

(** The candidate of a path [/s1/../sn] made of proper segments is the
    [public] directory followed by these segments. *)
Lemma candidate_slashed (cfg : Config) (segs : list string) :
  segs <> [] ->
  Forall properSegment segs ->
  candidate cfg (VString (slashed segs)) = publicRoot cfg ++ slashed segs.
Proof.
  intros Hne Hsegs.
  assert (Hlast : exists front name, segs = (front ++ [name])%list).
  { destruct (exists_last Hne) as (front & name & E). eauto. }
  destruct Hlast as (front & name & E).
  assert (Hname : properSegment name).
  { rewrite E in Hsegs. apply Forall_app in Hsegs. destruct Hsegs as [_ H].
    inversion H. assumption. }
  assert (Hsl : slashed segs <> "").
  { destruct segs as [|s segs]; [contradiction|]. cbn [slashed].
    change ("/" ++ s ++ slashed segs) with (String "/" (s ++ slashed segs)). discriminate. }
  assert (Hsplit : splitOn "/" (slashed segs) = "" :: segs).
  { rewrite <- (sapp_nil_l (slashed segs)).
    apply splitOn_slashed; [apply freeOf_nil | apply properSegment_free, Hsegs]. }
  unfold candidate, publicRoot. cbn [toString].
  rewrite pathJoin_three by (discriminate || exact Hsl).
  rewrite pathJoin_two by discriminate.
  destruct (publicJoined_ready cfg) as (HJ & Htr & Hbody).
  rewrite normalize_extend_quiet; try assumption.
  - rewrite Hsplit. cbn [List.filter nonEmpty String.eqb negb].
    rewrite (filter_nonEmpty_proper segs Hsegs).
    replace (NodePath.trailingSeparator (slashed segs)) with false;
      [rewrite sapp_nil_r; reflexivity|].
    rewrite E, slashed_app. cbn [slashed]. rewrite sapp_nil_r.
    rewrite !trailingSeparator_app by (discriminate || apply Hname).
    symmetry. apply trailingSeparator_free, Hname.
  - rewrite Hsplit. constructor; [left; reflexivity | apply properSegment_quiet, Hsegs].
Qed.

Lemma response_path_core (cfg : Config) (toLowerCase : text -> text)
      (userPath : text) (now : N) (originalname : string) :
  replaceFirst (publicRoot cfg) ""
    (NodePath.pathJoin [uploadPathOf cfg toLowerCase userPath;
                        filename now originalname])
  = "/uploads" ++ slashed (resolvedSegments toLowerCase userPath)
    ++ "/" ++ filename now originalname
  /\ candidate cfg
       (VString (replaceFirst (publicRoot cfg) ""
                   (NodePath.pathJoin [uploadPathOf cfg toLowerCase userPath;
                                       filename now originalname])))
     = NodePath.pathJoin [uploadPathOf cfg toLowerCase userPath;
                          filename now originalname].
Proof.
  rewrite (proj1 (stored_file_location_aux cfg toLowerCase userPath now originalname)).
  rewrite uploadRoot_below_publicRoot, sapp_assoc, replaceFirst_prefix, sapp_nil_l.
  split; [reflexivity|].
  pose proof (proj1 (filename_proper_core now originalname)) as Hname.
  pose proof (proj2 (resolvedSegments_proper toLowerCase userPath)) as Hsegs.
  assert (Hform : "/uploads" ++ slashed (resolvedSegments toLowerCase userPath)
                  ++ "/" ++ filename now originalname
                  = slashed ("uploads" :: resolvedSegments toLowerCase userPath
                                       ++ [filename now originalname])).
  { cbn [slashed]. rewrite slashed_app. cbn [slashed]. rewrite sapp_nil_r. reflexivity. }
  rewrite Hform, candidate_slashed.
  - reflexivity.
  - discriminate.
  - constructor.
    + destruct (plain_quiet "uploads" (proj2 plain_public)) as [H|H]; [discriminate H | exact H].
    + apply Forall_app. split; [exact Hsegs | constructor; [exact Hname | constructor]].
Qed.

(** X16.  The [path] that the upload answers with (line 83) is the stored
    path without the [public] directory in front, so it starts with
    [/uploads]; handed back to the delete route as a file name
    (lines 106-110), it addresses the stored file again.  This holds
    whatever the user path and the lower-casing. *)
Theorem response_path_round_trip (cfg : Config) (toLowerCase : text -> text)
        (userPath : text) (now : N) (originalname : string) :
  replaceFirst (publicRoot cfg) ""
    (NodePath.pathJoin [uploadPathOf cfg toLowerCase userPath;
                        filename now originalname])
  = "/uploads" ++ slashed (resolvedSegments toLowerCase userPath)
    ++ "/" ++ filename now originalname
  /\ candidate cfg
       (VString (replaceFirst (publicRoot cfg) ""
                   (NodePath.pathJoin [uploadPathOf cfg toLowerCase userPath;
                                       filename now originalname])))
     = NodePath.pathJoin [uploadPathOf cfg toLowerCase userPath;
                          filename now originalname].
Proof. intros; eapply response_path_core; eassumption. Qed.

(** ** Delete paths are not confined *)

Lemma sapp_inj_l (a b c : string) : a ++ b = a ++ c -> b = c.
Proof.
  induction a as [|x a IH]; [rewrite !sapp_nil_l; tauto|].
  rewrite !sapp_cons. intros E. injection E as E. apply IH, E.
Qed.

Lemma startsWith_app_both (a b c : string) :
  startsWith (a ++ b) (a ++ c) = startsWith b c.
Proof.
  induction a as [|x a IH]; [reflexivity|].
  rewrite !sapp_cons. cbn [startsWith]. rewrite Ascii.eqb_refl. exact IH.
Qed.

Lemma join_snoc_prefix (L : list string) :
  exists P : string, forall y : string, join "/" (L ++ [y]) = P ++ y.
Proof.
  destruct L as [|x L].
  - exists "". reflexivity.
  - exists (join "/" (x :: L) ++ "/"). intros y.
    rewrite join_app_slashed by discriminate. cbn [slashed].
    rewrite sapp_nil_r, sapp_assoc. reflexivity.
Qed.

Lemma joinedUnder_public (d : string) :
  exists X : string, joinedUnder d "../public" = X ++ String "/" "public".
Proof.
  unfold joinedUnder. destruct (nonEmpty d).
  - exists (d ++ String "/" ".."). rewrite sapp_assoc. reflexivity.
  - exists "..". reflexivity.
Qed.

(** The candidate of [../g] and the [public] directory are two entries
    of one directory. *)
Lemma candidate_sibling (cfg : Config) (g : string) :
  properSegment g ->
  exists Q : string,
    publicRoot cfg = Q ++ "public"
    /\ candidate cfg (VString ("../" ++ g)) = Q ++ g.
Proof.
  intros Hg.
  assert (Hg1 : g <> "") by apply Hg.
  assert (Hgf : freeOf "/" g) by apply Hg.
  destruct (publicJoined_ready cfg) as (HJ & Htr & Hbody).
  destruct (joinedUnder_public (dirname cfg)) as [X EX].
  set (J := joinedUnder (dirname cfg) "../public") in *.
  set (allow := negb (NodePath.isAbsolute J)) in *.
  set (st0 := fold_left (NodePath.pushSegment allow) (splitOn "/" X) []).
  assert (HsegP : NodePath.normalizeSegments allow (splitOn "/" J)
                  = (rev st0 ++ ["public"])%list).
  { rewrite EX, splitOn_app. unfold NodePath.normalizeSegments.
    rewrite fold_left_app. fold st0. reflexivity. }
  assert (HsegC : NodePath.normalizeSegments allow (splitOn "/" (J ++ String "/" ("../" ++ g)))
                  = (rev st0 ++ [g])%list).
  { rewrite splitOn_app.
    change ("../" ++ g) with (".." ++ String "/" g).
    rewrite (splitOn_app "/" ".." g), (splitOn_free "/" g Hgf).
    rewrite EX, splitOn_app. unfold NodePath.normalizeSegments.
    rewrite !fold_left_app. fold st0. cbn [splitOn fold_left Ascii.eqb Bool.eqb app].
    change (NodePath.pushSegment allow
              (NodePath.pushSegment allow (NodePath.pushSegment allow st0 "public") "..") g)
      with (NodePath.pushSegment allow st0 g).
    rewrite pushSegment_proper by exact Hg. reflexivity. }
  destruct (join_snoc_prefix (rev st0)) as [P HP].
  exists ((if NodePath.isAbsolute J then "/" else "") ++ P). split.
  - unfold publicRoot. rewrite pathJoin_two by discriminate. fold J.
    rewrite (normalize_of_body J HJ Hbody). fold allow.
    rewrite HsegP, HP, Htr, sapp_nil_r, sapp_assoc. reflexivity.
  - unfold candidate. cbn [toString].
    rewrite pathJoin_three by discriminate. fold J.
    rewrite normalize_of_body.
    + rewrite isAbsolute_app by exact HJ. fold allow. rewrite HsegC, HP.
      change (String "/" ("../" ++ g)) with ("/../" ++ g).
      rewrite !trailingSeparator_app by (discriminate || exact Hg1).
      rewrite (trailingSeparator_free g Hgf), sapp_nil_r, sapp_assoc. reflexivity.
    + apply sapp_nonempty_l, HJ.
    + rewrite isAbsolute_app by exact HJ. fold allow. rewrite HsegC.
      apply join_snoc_nonempty, Hg1.
Qed.

Lemma candidate_outside_public (cfg : Config) (g : string) :
  properSegment g -> g <> "public" ->
  isWithin (publicRoot cfg) (candidate cfg (VString ("../" ++ g))) = false.
Proof.
  intros Hg Hne. destruct (candidate_sibling cfg g Hg) as (Q & EP & EC).
  rewrite EP, EC. unfold isWithin. apply orb_false_iff. split.
  - apply String.eqb_neq. intros E. apply sapp_inj_l in E. contradiction.
  - rewrite sapp_assoc, startsWith_app_both.
    destruct (startsWith g ("public" ++ "/")) eqn:E; [|reflexivity].
    exfalso. destruct Hg as (_ & _ & _ & Hf). apply Hf.
    apply (startsWith_chars g ("public" ++ "/") E).
    change (In "/"%char (chars "public/")). unfold chars.
    cbn [list_ascii_of_string In]. do 6 right. left. reflexivity.
Qed.

(** X8.  The delete route is not confined to [public]: for a name [../g],
    with [g] a proper segment other than [public], it issues the
    removal of an entry that lies outside the [public] directory (and
    so outside the upload root), and that entry is no file afterwards. *)
Theorem delete_not_confined (cfg : Config) (req : Request) (w : World) (g : string) :
  keyAccepted cfg req ->
  properSegment g -> g <> "public" -> freeOf "," g ->
  queryFilenames req = VString ("../" ++ g) ->
  exists p : string,
    trace (fst (deleteDelete cfg req w)) = (trace w ++ [SysUnlink p])%list
    /\ isWithin (publicRoot cfg) p = false
    /\ isFile p (fst (deleteDelete cfg req w)) = false.
Proof.
  intros H Hg Hne Hcomma Hq.
  assert (Ht : truthy (queryFilenames req) = true) by (rewrite Hq; reflexivity).
  assert (Hc : candidatesOf cfg req = [candidate cfg (VString ("../" ++ g))]).
  { unfold candidatesOf. rewrite Hq. cbn [filesArrayOf toString].
    rewrite splitOn_free; [reflexivity|].
    apply freeOf_app. split; [|exact Hcomma].
    intros Hin. unfold chars in Hin. cbn in Hin.
    repeat (destruct Hin as [Hin|Hin]; [discriminate Hin|]). exact Hin. }
  exists (candidate cfg (VString ("../" ++ g))).
  rewrite (deleteDelete_accepted cfg req w H Ht). cbn [fst].
  fold (candidatesOf cfg req). rewrite Hc. split; [|split].
  - apply unlinkAll_trace.
  - apply candidate_outside_public; assumption.
  - unfold isFile. apply bool_decide_eq_false. rewrite unlinkAll_files.
    rewrite bool_decide_eq_true_2 by (left).
    intros [v Hv]. discriminate Hv.
Qed.

Lemma delete_not_confined_witness :
  exists p : string,
    trace (fst (deleteDelete sampleConfig (deleteRequest (Some "s3cret") (VString "../dist"))
                             sampleWorld))
    = (trace sampleWorld ++ [SysUnlink p])%list
    /\ isWithin (publicRoot sampleConfig) p = false
    /\ isFile p (fst (deleteDelete sampleConfig
                        (deleteRequest (Some "s3cret") (VString "../dist")) sampleWorld))
       = false.
Proof.
  apply (delete_not_confined sampleConfig (deleteRequest (Some "s3cret") (VString "../dist"))
           sampleWorld "dist").
  - exists "s3cret". repeat split. discriminate.
  - destruct (plain_quiet "dist") as [H|H]; [repeat constructor | discriminate H | exact H].
  - discriminate.
  - intros Hin. unfold chars in Hin. cbn in Hin.
    repeat (destruct Hin as [Hin|Hin]; [discriminate Hin|]). exact Hin.
  - reflexivity.
Defined.

Example delete_climbs_out :
  candidate sampleConfig (VString "../dist/index.js") = "/srv/app/dist/index.js"
  /\ candidate sampleConfig (VString "../../../etc/passwd") = "/etc/passwd".
Proof. split; reflexivity. Qed.

(** ** The upload route *)

Lemma mkdirRecursive_trace (p : string) (w : World) :
  trace (fst (mkdirRecursive p w)) = (trace w ++ [SysMkdir p])%list.
Proof. unfold mkdirRecursive. rewrite mkdirChain_trace. reflexivity. Qed.

Lemma mkdirRecursive_files (p : string) (w : World) :
  files (fst (mkdirRecursive p w)) = files w.
Proof. unfold mkdirRecursive. rewrite mkdirChain_files. reflexivity. Qed.

Lemma mkdirRecursive_lowerCase (p : string) (w : World) :
  lowerCase (fst (mkdirRecursive p w)) = lowerCase w.
Proof. unfold mkdirRecursive. rewrite mkdirChain_lowerCase. reflexivity. Qed.

Lemma writeFile_trace (p content : string) (w : World) :
  trace (fst (writeFile p content w)) = (trace w ++ [SysWrite p])%list.
Proof.
  unfold writeFile.
  repeat match goal with
         | |- context [if ?b then _ else _] => destruct b
         end; reflexivity.
Qed.

Lemma writeFile_lowerCase (p content : string) (w : World) :
  lowerCase (fst (writeFile p content w)) = lowerCase w.
Proof.
  unfold writeFile.
  repeat match goal with
         | |- context [if ?b then _ else _] => destruct b
         end; reflexivity.
Qed.

Lemma writeFile_result (p content : string) (w : World) :
  match snd (writeFile p content w) with
  | Some err => openError err
  | None => files (fst (writeFile p content w)) = <[p := content]> (files w)
  end.
Proof.
  unfold writeFile, openError.
  repeat match goal with
         | |- context [if ?b then _ else _] => destruct b
         end; cbn [snd fst message]; eauto.
Qed.

Lemma removeUploaded_trace (stored : list MulterFile) (w : World) :
  trace (removeUploaded stored w)
  = (trace w ++ List.map (fun f => SysUnlink (storedPath f)) stored)%list.
Proof.
  revert w. induction stored as [|f stored IH]; intros w.
  - simpl. rewrite app_nil_r. reflexivity.
  - cbn [removeUploaded List.map]. rewrite IH, unlink_trace, <- app_assoc. reflexivity.
Qed.

Lemma confined_nil (cfg : Config) (w : World) :
  exists added : list Syscall,
    trace w = (trace w ++ added)%list /\ confined cfg added.
Proof. exists []. split; [rewrite app_nil_r; reflexivity | constructor]. Qed.

Lemma confined_app (cfg : Config) (a b : list Syscall) :
  confined cfg a -> confined cfg b -> confined cfg (a ++ b).
Proof. intros Ha Hb. apply Forall_app. split; assumption. Qed.

Lemma confined_unlinks (cfg : Config) (stored : list MulterFile) :
  Forall (fun f => isWithin (uploadRoot cfg) (storedPath f) = true) stored ->
  confined cfg (List.map (fun f => SysUnlink (storedPath f)) stored).
Proof.
  intros H. induction H as [|f stored Hf _ IH]; [constructor|].
  constructor; assumption.
Qed.

Lemma confined_step (cfg : Config) (t0 t1 t2 : list Syscall) (mid : list Syscall) :
  t1 = (t0 ++ mid)%list -> confined cfg mid ->
  (exists added, t2 = (t1 ++ added)%list /\ confined cfg added) ->
  exists added, t2 = (t0 ++ added)%list /\ confined cfg added.
Proof.
  intros -> Hmid (added & -> & Hadd). exists (mid ++ added)%list.
  split; [rewrite app_assoc; reflexivity | apply confined_app; assumption].
Qed.

(** The parts of a body as they come in: every call works inside the
    upload root, no file changes, and each named file gets the answer
    of [destination] for the user path in effect at that moment; the
    only exception is that of a path that is not a string. *)
Lemma arrive_spec (cfg : Config) (req : Request) (parts : list Part) :
  forall (bodyPath : PathValue) (pending : list Pending) (w : World),
    (exists added : list Syscall,
        trace (fst (arrive cfg req parts bodyPath pending w)) = (trace w ++ added)%list
        /\ confined cfg added)
    /\ lowerCase (fst (arrive cfg req parts bodyPath pending w)) = lowerCase w
    /\ files (fst (arrive cfg req parts bodyPath pending w)) = files w
    /\ match snd (arrive cfg req parts bodyPath pending w) with
       | inl err => message err = "userPath.toLowerCase is not a function"
       | inr pending' =>
           exists new : list Pending,
             pending' = (pending ++ new)%list
             /\ Forall2 (fun fr fv => fst fr = fst fv
                                      /\ answered cfg (lowerCase w) (snd fv) (snd fr))
                        new (pathsInEffect req parts bodyPath)
       end.
Proof.
  induction parts as [|part rest IH]; intros bodyPath pending w.
  - cbn [arrive fst snd pathsInEffect]. repeat split.
    + apply confined_nil.
    + exists []. split; [rewrite app_nil_r; reflexivity | constructor].
  - destruct part as [value|f]; cbn [arrive pathsInEffect]; [apply IH|].
    destruct (nonEmpty (partName f)); [|apply IH].
    destruct (userPath_cases bodyPath req) as [[u E]|E].
    + rewrite (destination_text cfg bodyPath req w u E).
      set (dir := uploadPathOf cfg (lowerCase w) u).
      set (r := match snd (mkdirRecursive dir w) with
                | Some _ => inl (mkError "Failed to create directory.")
                | None => inr dir
                end).
      destruct (IH bodyPath (pending ++ [(f, r)])%list (fst (mkdirRecursive dir w)))
        as (Htr & Hlow & Hfiles & Hres).
      rewrite mkdirRecursive_lowerCase in Hlow, Hres.
      rewrite mkdirRecursive_files in Hfiles.
      split; [|split; [exact Hlow | split; [exact Hfiles|]]].
      * eapply confined_step; [apply mkdirRecursive_trace | | exact Htr].
        repeat constructor. apply uploadPath_within_root.
      * destruct (snd (arrive cfg req rest bodyPath _ _)) as [err|pending'];
          [exact Hres|].
        destruct Hres as (new & -> & Hall). exists ((f, r) :: new).
        split; [rewrite <- app_assoc; reflexivity|].
        constructor; [|exact Hall]. cbn [fst snd]. split; [reflexivity|].
        exists u. split; [exact E|].
        unfold r. destruct (snd (mkdirRecursive dir w)); [right | left]; reflexivity.
    + rewrite (destination_structured cfg bodyPath req w E). cbn [fst snd].
      repeat split. apply confined_nil.
Qed.

Lemma storedFile_within (cfg : Config) (toLowerCase : text -> text) (u : text)
      (f : FilePart) :
  isWithin (uploadRoot cfg)
           (storedPath (storedFile (uploadPathOf cfg toLowerCase u) f)) = true.
Proof. unfold storedFile. cbn [storedPath]. apply stored_file_location_aux. Qed.

(** The writes: every call works inside the upload root; what is
    stored lies inside it; the errors are those of opening a file; and
    without such an error every file whose directory was handed on is
    stored. *)
Lemma writeAll_spec (cfg : Config) (pending : list Pending) :
  forall (stored : list MulterFile) (errors : list JsError) (w : World),
    Forall (fun fr => forall dir, snd fr = inr dir ->
                        exists toLowerCase u, dir = uploadPathOf cfg toLowerCase u)
           pending ->
    (exists added : list Syscall,
        trace (fst (writeAll pending stored errors w)) = (trace w ++ added)%list
        /\ confined cfg added)
    /\ exists (stored' : list MulterFile) (errors' : list JsError),
        snd (writeAll pending stored errors w)
        = ((stored ++ stored')%list, (errors ++ errors')%list)
        /\ Forall (fun f => isWithin (uploadRoot cfg) (storedPath f) = true) stored'
        /\ Forall openError errors'
        /\ (errors' = [] -> stored' = recordsOf pending).
Proof.
  induction pending as [|[f [e|dir]] rest IH]; intros stored errors w Hp.
  - cbn [writeAll fst snd]. split; [apply confined_nil|].
    exists [], []. rewrite !app_nil_r. repeat split; constructor.
  - inversion Hp as [|? ? _ Hrest]; subst. cbn [writeAll].
    destruct (IH stored errors w Hrest) as [Htr Hres]. split; [exact Htr|].
    destruct Hres as (stored' & errors' & E & Hw & Ho & Hrec).
    exists stored', errors'. repeat split; assumption.
  - inversion Hp as [|? ? Hdir Hrest]; subst. cbn [writeAll].
    destruct (Hdir dir eq_refl) as (toLowerCase & u & ->).
    set (dir := uploadPathOf cfg toLowerCase u).
    set (name := filename (arrival f) (partName f)).
    set (finalPath := NodePath.pathJoin [dir; name]).
    assert (Hfinal : isWithin (uploadRoot cfg) finalPath = true)
      by apply stored_file_location_aux.
    pose proof (writeFile_trace finalPath (partContent f) w) as Hwt.
    pose proof (writeFile_result finalPath (partContent f) w) as Hwr.
    destruct (writeFile finalPath (partContent f) w) as [w1 [err|]];
      cbn [fst snd] in Hwt, Hwr.
    + destruct (IH stored (errors ++ [err])%list w1 Hrest) as [Htr Hres]. split.
      * eapply confined_step; [exact Hwt | repeat constructor; exact Hfinal | exact Htr].
      * destruct Hres as (stored' & errors' & E & Hw & Ho & _).
        exists stored', (err :: errors'). rewrite E, <- app_assoc.
        repeat split; try assumption; [constructor; assumption | discriminate].
    + destruct (IH (stored ++ [mkFile (partName f) dir name finalPath])%list errors w1 Hrest)
        as [Htr Hres]. split.
      * eapply confined_step; [exact Hwt | repeat constructor; exact Hfinal | exact Htr].
      * destruct Hres as (stored' & errors' & E & Hw & Ho & Hrec).
        exists (mkFile (partName f) dir name finalPath :: stored'), errors'.
        rewrite E, <- app_assoc.
        repeat split; try assumption; [constructor; assumption|].
        intros He. rewrite (Hrec He). reflexivity.
Qed.

Lemma answered_resolved (cfg : Config) (toLowerCase : text -> text)
      (new : list Pending) (effects : list (FilePart * PathValue)) :
  Forall2 (fun fr fv => fst fr = fst fv /\ answered cfg toLowerCase (snd fv) (snd fr))
          new effects ->
  Forall (fun fr => forall dir, snd fr = inr dir ->
                      exists lower u, dir = uploadPathOf cfg lower u) new
  /\ Forall (fun err => message err = "Failed to create directory.")
            (destinationErrors new)
  /\ (destinationErrors new = [] ->
      exists placed : list (FilePart * text),
        effects = List.map (fun fu => (fst fu, PathText (snd fu))) placed
        /\ recordsOf new
           = List.map (fun fu => storedFile (uploadPathOf cfg toLowerCase (snd fu)) (fst fu))
                      placed).
Proof.
  intros H. induction H as [|[f r] [f' v] new effects [Hf (u & Hv & Hr)] _ IH].
  - repeat split; try constructor. intros _. exists []. split; reflexivity.
  - cbn [fst snd] in Hf, Hv, Hr. subst f' v.
    destruct IH as (IH1 & IH2 & IH3). destruct Hr as [->| ->].
    + split; [|split].
      * constructor; [|exact IH1]. cbn [snd]. intros dir E. injection E as <-. eauto.
      * exact IH2.
      * intros He. destruct (IH3 He) as (placed & -> & Hrec).
        exists ((f, u) :: placed). cbn [List.map fst snd]. split; [reflexivity|].
        unfold recordsOf in *. cbn [flat_map fst snd app]. rewrite Hrec. reflexivity.
    + split; [|split].
      * constructor; [|exact IH1]. cbn [snd]. intros dir E. discriminate E.
      * constructor; [reflexivity | exact IH2].
      * intros He. discriminate He.
Qed.

(** [upload.array("files")] on a multipart body. *)
Lemma uploadArray_spec (cfg : Config) (req : Request) (w : World) (parts : list Part) :
  multipart req = Some parts ->
  (exists added : list Syscall,
      trace (fst (uploadArray cfg req w)) = (trace w ++ added)%list
      /\ confined cfg added)
  /\ match snd (uploadArray cfg req w) with
     | Next req' =>
         exists placed : list (FilePart * text),
           pathsInEffect req parts PathUndefined
           = List.map (fun fu => (fst fu, PathText (snd fu))) placed
           /\ req' = withFiles
                       (FilesArray
                          (List.map (fun fu => storedFile
                                                 (uploadPathOf cfg (lowerCase w) (snd fu))
                                                 (fst fu)) placed)) req
     | NextError err => message err = "Failed to create directory." \/ openError err
     | Crash err => message err = "userPath.toLowerCase is not a function"
     | Send _ => False
     end.
Proof.
  intros Hm. unfold uploadArray. rewrite Hm.
  destruct (arrive_spec cfg req parts PathUndefined [] w) as (Htr & _ & _ & Hres).
  destruct (arrive cfg req parts PathUndefined [] w) as [w1 [err|pending]];
    cbn [fst snd] in *; [split; assumption|].
  destruct Hres as (new & E & Hall). cbn [app] in E. subst new.
  destruct (answered_resolved cfg (lowerCase w) pending _ Hall) as (Hdirs & Hde & Hplaced).
  destruct (writeAll_spec cfg pending [] [] w1 Hdirs) as [Htr2 Hres2].
  destruct Hres2 as (stored' & errors' & E & Hwithin & Hopen & Hrec).
  destruct (writeAll pending [] [] w1) as [w2 [stored writeErrors]].
  cbn [fst snd app] in *. injection E as -> ->.
  destruct Htr as (a1 & Ht1 & Hc1).
  destruct (destinationErrors pending ++ errors')%list as [|err errs] eqn:Ee.
  - apply app_eq_nil in Ee. destruct Ee as [Ed Ew]. cbn [fst snd]. split.
    + eapply confined_step; [exact Ht1 | exact Hc1 | exact Htr2].
    + destruct (Hplaced Ed) as (placed & Hp & Hr). exists placed.
      split; [exact Hp|]. rewrite (Hrec Ew), Hr. reflexivity.
  - cbn [fst snd]. split.
    + eapply confined_step; [exact Ht1 | exact Hc1 |].
      destruct Htr2 as (a2 & Ht2 & Hc2).
      exists (a2 ++ List.map (fun f => SysUnlink (storedPath f)) stored')%list.
      rewrite removeUploaded_trace, Ht2, <- app_assoc. split; [reflexivity|].
      apply confined_app; [exact Hc2 | apply confined_unlinks, Hwithin].
    + assert (Hin : In err (destinationErrors pending ++ errors')%list)
        by (rewrite Ee; left; reflexivity).
      apply in_app_or in Hin. destruct Hin as [Hin|Hin].
      * left. rewrite List.Forall_forall in Hde. apply Hde, Hin.
      * right. rewrite List.Forall_forall in Hopen. apply Hopen, Hin.
Qed.

Lemma postUpload_passed (cfg : Config) (req : Request) (w : World) :
  validateApiKey cfg req w = (w, Next req) ->
  postUpload cfg req w
  = match uploadArray cfg req w with
    | (w', Next req') => (w', snd (runChain [uploadHandler cfg] req' w'))
    | (w', Send resp) => (w', Replied resp)
    | (w', NextError err) => (w', Errored err)
    | (w', Crash err) => (w', Crashed err)
    end.
Proof.
  intros E. unfold postUpload, uploadRoute. cbn [runChain]. rewrite E.
  destruct (uploadArray cfg req w) as [w' [req'|resp|err|err]]; try reflexivity.
  cbn [runChain]. unfold uploadHandler.
  destruct (filesFalsy _ || negb _); reflexivity.
Qed.

(** X17.  Whatever the request (key, body, path, names of the files),
    every file-system call that the upload route issues, the removals
    of an aborted upload included, works on the upload root or below
    it. *)
Theorem upload_confined (cfg : Config) (req : Request) (w : World) :
  exists added : list Syscall,
    trace (fst (postUpload cfg req w)) = (trace w ++ added)%list
    /\ confined cfg added.
Proof.
  destruct (validateApiKey_cases cfg req w) as [E|E].
  - unfold postUpload, uploadRoute. cbn [runChain]. rewrite E. apply confined_nil.
  - rewrite (postUpload_passed cfg req w E).
    destruct (multipart req) as [parts|] eqn:Hm.
    + destruct (uploadArray_spec cfg req w parts Hm) as [Htr _].
      destruct (uploadArray cfg req w) as [w' [req'|resp|err|err]]; exact Htr.
    + unfold uploadArray. rewrite Hm. apply confined_nil.
Qed.

(** Two files, the second with the path [../../etc] in force: the
    directories are asked for first, then the files are written, all of
    it below the upload root. *)
Example upload_two_files :
  trace (fst (postUpload sampleConfig
                (formRequest (Some "s3cret")
                   [FileData (mkPart "a.txt" "A" 1700000000000);
                    PathField (unitsOf "../../etc");
                    FileData (mkPart "b.txt" "B" 1700000000001)])
                sampleWorld))
  = [SysMkdir "/srv/app/public/uploads";
     SysMkdir "/srv/app/public/uploads/etc";
     SysWrite "/srv/app/public/uploads/1700000000000-a.txt";
     SysWrite "/srv/app/public/uploads/etc/1700000000001-b.txt"].
Proof. vm_compute. reflexivity. Qed.

Lemma fileRecord_stored (cfg : Config) (toLowerCase : text -> text) (u : text)
      (part : FilePart) :
  fileRecord cfg (storedFile (uploadPathOf cfg toLowerCase u) part)
  = uploadedRecord toLowerCase u part.
Proof.
  unfold fileRecord, storedFile, uploadedRecord, uploadedPath.
  cbn [originalname storedName storedPath].
  rewrite (proj1 (response_path_core cfg toLowerCase u (arrival part) (partName part))).
  reflexivity.
Qed.

(** X18.  An accepted multipart upload that the program answers is
    answered 200 with one record per named file, in the order of the
    files: the original name, the derived name, and the path
    [/uploads/<directories>/<derived name>], where the directories are
    those of the user path in effect when that file arrived. *)
Theorem upload_success_records (cfg : Config) (req : Request) (w : World)
        (parts : list Part) (resp : Response) :
  keyAccepted cfg req ->
  multipart req = Some parts ->
  snd (postUpload cfg req w) = Replied resp ->
  exists placed : list (FilePart * text),
    pathsInEffect req parts PathUndefined
    = List.map (fun fu => (fst fu, PathText (snd fu))) placed
    /\ resp = mkResponse 200
                (JObject [("message", JString "Files uploaded successfully.");
                          ("files",
                           JArray (List.map (fun fu => uploadedRecord (lowerCase w)
                                                         (snd fu) (fst fu))
                                            placed))]).
Proof.
  intros H Hm Hr.
  rewrite (postUpload_passed cfg req w (validateApiKey_accepts cfg req w H)) in Hr.
  destruct (uploadArray_spec cfg req w parts Hm) as [_ Hres].
  destruct (uploadArray cfg req w) as [w' [req'|r|err|err]]; cbn [snd] in *;
    try discriminate Hr; [|contradiction].
  destruct Hres as (placed & Hp & ->). exists placed. split; [exact Hp|].
  cbn in Hr. injection Hr as <-. rewrite List.map_map.
  rewrite (List.map_ext _ (fun fu => uploadedRecord (lowerCase w) (snd fu) (fst fu)));
    [reflexivity|].
  intros fu. apply fileRecord_stored.
Qed.

(** A file, then the field [path] with the value [Docs], then a second
    file: the first file is stored in the upload root, the second in
    [docs]. *)
Lemma upload_success_records_witness :
  exists placed : list (FilePart * text),
    pathsInEffect
      (formRequest (Some "s3cret")
         [FileData (mkPart "a.txt" "A" 1700000000000);
          PathField (unitsOf "Docs");
          FileData (mkPart "b.txt" "B" 1700000000001)])
      [FileData (mkPart "a.txt" "A" 1700000000000);
       PathField (unitsOf "Docs");
       FileData (mkPart "b.txt" "B" 1700000000001)] PathUndefined
    = List.map (fun fu => (fst fu, PathText (snd fu))) placed
    /\ mkResponse 200
         (JObject [("message", JString "Files uploaded successfully.");
                   ("files",
                    JArray [JObject
                              [("originalname", JString "a.txt");
                               ("filename", JString "1700000000000-a.txt");
                               ("path", JString "/uploads/1700000000000-a.txt")];
                            JObject
                              [("originalname", JString "b.txt");
                               ("filename", JString "1700000000001-b.txt");
                               ("path", JString "/uploads/docs/1700000000001-b.txt")]])])
       = mkResponse 200
           (JObject [("message", JString "Files uploaded successfully.");
                     ("files",
                      JArray (List.map (fun fu => uploadedRecord (lowerCase sampleWorld)
                                                    (snd fu) (fst fu))
                                       placed))]).
Proof.
  apply (upload_success_records sampleConfig
           (formRequest (Some "s3cret")
              [FileData (mkPart "a.txt" "A" 1700000000000);
               PathField (unitsOf "Docs");
               FileData (mkPart "b.txt" "B" 1700000000001)])
           sampleWorld
           [FileData (mkPart "a.txt" "A" 1700000000000);
            PathField (unitsOf "Docs");
            FileData (mkPart "b.txt" "B" 1700000000001)]).
  - exists "s3cret". repeat split. discriminate.
  - reflexivity.
  - vm_compute. reflexivity.
Defined.

(** X19.  An accepted upload is answered 400 exactly when its body is not
    multipart; a multipart body, even one without any file, never is. *)
Theorem upload_400_iff (cfg : Config) (req : Request) (w : World) :
  keyAccepted cfg req ->
  reqFiles req = FilesUndefined ->
  (exists resp : Response,
      snd (postUpload cfg req w) = Replied resp /\ status resp = 400)
  <-> multipart req = None.
Proof.
  intros H Hf. split.
  - intros (resp & Hr & Hs).
    destruct (multipart req) as [parts|] eqn:Hm; [|reflexivity]. exfalso.
    rewrite (postUpload_passed cfg req w (validateApiKey_accepts cfg req w H)) in Hr.
    destruct (uploadArray_spec cfg req w parts Hm) as [_ Hres].
    destruct (uploadArray cfg req w) as [w' [req'|r|err|err]]; cbn [snd] in *;
      try discriminate Hr; [|contradiction].
    destruct Hres as (placed & _ & ->). cbn in Hr. injection Hr as <-. discriminate Hs.
  - intros Hm. rewrite (postUpload_not_multipart cfg req w H Hm Hf).
    eexists. split; reflexivity.
Qed.

Lemma upload_400_iff_witness :
  (exists resp : Response,
      snd (postUpload sampleConfig (uploadRequest (Some "s3cret") VUndefined None)
                      sampleWorld) = Replied resp
      /\ status resp = 400)
  <-> multipart (uploadRequest (Some "s3cret") VUndefined None) = None.
Proof.
  apply (upload_400_iff sampleConfig (uploadRequest (Some "s3cret") VUndefined None)
                        sampleWorld).
  - exists "s3cret". repeat split. discriminate.
  - reflexivity.
Defined.

(** ** A path that is not a string *)




Example upload_path_twice :
  snd (postUpload sampleConfig
         (formRequest (Some "s3cret")
            [PathField (unitsOf "a"); PathField (unitsOf "b");
             FileData (mkPart "a.txt" "A" 1700000000000)])
         sampleWorld)
  = Crashed (mkError "userPath.toLowerCase is not a function").
Proof. vm_compute. reflexivity. Qed.

(** ** What a failing request is answered with *)



(** How each kind of failing request ends, on the sample data: a wrong
    key, no file names, no multipart body, a missing file, a directory
    that cannot be created, a file that cannot be written, and a path
    given twice. *)
Example failing_requests :
  snd (deleteDelete sampleConfig (deleteRequest (Some "guess") (VString "a.txt"))
                    sampleWorld)
  = Replied (mkResponse 403 (jsonMessage "Forbidden: Invalid API Key"))
  /\ snd (deleteDelete sampleConfig (deleteRequest (Some "s3cret") VUndefined)
                       sampleWorld)
     = Replied (mkResponse 400 (jsonMessage "Filenames are required."))
  /\ snd (postUpload sampleConfig (uploadRequest (Some "s3cret") VUndefined None)
                     sampleWorld)
     = Replied (mkResponse 400 (jsonMessage "No files were uploaded."))
  /\ snd (deleteDelete sampleConfig (deleteRequest (Some "s3cret") (VString "b.txt"))
                       sampleWorld)
     = Replied (mkResponse 500
                  (JObject [("message", JString "Error deleting files.");
                            ("errors",
                             JArray [JString "ENOENT: no such file or directory, unlink '/srv/app/public/b.txt'"])]))
  /\ snd (postUpload sampleConfig
            (uploadRequest (Some "s3cret") (VString "report")
                           (Some [mkPart "a.txt" "A" 1700000000000]))
            blockedWorld)
     = Errored (mkError "Failed to create directory.")
  /\ snd (postUpload sampleConfig
            (uploadRequest (Some "s3cret") VUndefined
                           (Some [mkPart "report" "A" 0]))
            (setDirs {[ "/srv/app/public/uploads/0-report" ]} sampleWorld))
     = Errored (mkError "EISDIR: illegal operation on a directory, open '/srv/app/public/uploads/0-report'")
  /\ snd (postUpload sampleConfig
            (uploadRequest (Some "s3cret") (VArray [VString "a"; VString "b"])
                           (Some [mkPart "a.txt" "A" 1700000000000]))
            sampleWorld)
     = Crashed (mkError "userPath.toLowerCase is not a function").
Proof. vm_compute. repeat split. Qed.



(** ** Upload, then delete *)

Lemma unlinkAll_all_fail (paths : list string) (w : World) :
  Forall (fun p => isFile p w = false) paths ->
  Forall (fun r => r <> None) (snd (unlinkAll paths w))
  /\ files (fst (unlinkAll paths w)) = files w.
Proof.
  revert w. induction paths as [|p rest IH]; intros w H; [split; [constructor | reflexivity]|].
  inversion H as [|? ? Hp Hrest]; subst. rewrite unlinkAll_cons. cbn [fst snd].
  assert (Hfiles : files (fst (unlink p w)) = files w).
  { rewrite unlink_files. apply delete_id. unfold isFile in Hp.
    apply bool_decide_eq_false in Hp. destruct (files w !! p) eqn:E; [|reflexivity].
    exfalso. apply Hp. eauto. }
  destruct (IH (fst (unlink p w))) as [IH1 IH2].
  { eapply List.Forall_impl; [|exact Hrest]. intros q Hq. apply isFile_after_unlink, Hq. }
  split.
  - constructor; [|exact IH1].
    destruct (unlink_result p w) as [[Hf _]|[_ [e He]]]; [congruence|].
    rewrite He. discriminate.
  - rewrite IH2. exact Hfiles.
Qed.

Lemma failureMessages_length (results : list (option JsError)) :
  Forall (fun r => r <> None) results ->
  List.length (failureMessages results) = List.length results.
Proof.
  intros H. induction H as [|r results Hr _ IH]; [reflexivity|].
  destruct r as [e|]; [|contradiction]. cbn. rewrite <- IH. reflexivity.
Qed.

(** X7.  Repeating an accepted delete request that names at least one path:
    the second run finds none of its paths, is answered 500 with one
    error per path, and changes no file. *)
Theorem delete_twice (cfg : Config) (req : Request) (w : World) :
  keyAccepted cfg req ->
  truthy (queryFilenames req) = true ->
  candidatesOf cfg req <> [] ->
  exists errors : list string,
    snd (deleteDelete cfg req (fst (deleteDelete cfg req w)))
    = Replied (mkResponse 500
                 (JObject [("message", JString "Error deleting files.");
                           ("errors", JArray (List.map JString errors))]))
    /\ List.length errors = List.length (candidatesOf cfg req)
    /\ files (fst (deleteDelete cfg req (fst (deleteDelete cfg req w))))
       = files (fst (deleteDelete cfg req w)).
Proof.
  intros H Ht Hne.
  rewrite (deleteDelete_accepted cfg req (fst (deleteDelete cfg req w)) H Ht).
  rewrite (deleteDelete_accepted cfg req w H Ht). cbn [fst snd].
  fold (candidatesOf cfg req).
  set (w1 := fst (unlinkAll (candidatesOf cfg req) w)).
  assert (Hgone : Forall (fun p => isFile p w1 = false) (candidatesOf cfg req)).
  { apply List.Forall_forall. intros p Hp. unfold isFile, w1.
    apply bool_decide_eq_false. rewrite unlinkAll_files.
    rewrite bool_decide_eq_true_2 by (apply list_elem_of_In, Hp).
    intros [v Hv]. discriminate Hv. }
  destruct (unlinkAll_all_fail _ w1 Hgone) as [Hfail Hfiles].
  exists (failureMessages (snd (unlinkAll (candidatesOf cfg req) w1))).
  split; [|split].
  - rewrite deleteReport_failed; [reflexivity|].
    intros Hnil. apply errorsOf_nil in Hnil.
    pose proof (unlinkAll_length (candidatesOf cfg req) w1) as Hlen.
    destruct (snd (unlinkAll (candidatesOf cfg req) w1)) as [|r rs].
    + destruct (candidatesOf cfg req); [contradiction | discriminate Hlen].
    + inversion Hfail; inversion Hnil; subst. contradiction.
  - rewrite failureMessages_length by exact Hfail. apply unlinkAll_length.
  - exact Hfiles.
Qed.

Lemma delete_twice_witness :
  exists errors : list string,
    snd (deleteDelete sampleConfig (deleteRequest (Some "s3cret") (VString "a.txt"))
           (fst (deleteDelete sampleConfig
                   (deleteRequest (Some "s3cret") (VString "a.txt")) sampleWorld)))
    = Replied (mkResponse 500
                 (JObject [("message", JString "Error deleting files.");
                           ("errors", JArray (List.map JString errors))]))
    /\ List.length errors
       = List.length (candidatesOf sampleConfig
                        (deleteRequest (Some "s3cret") (VString "a.txt")))
    /\ files (fst (deleteDelete sampleConfig
                     (deleteRequest (Some "s3cret") (VString "a.txt"))
                     (fst (deleteDelete sampleConfig
                             (deleteRequest (Some "s3cret") (VString "a.txt"))
                             sampleWorld))))
       = files (fst (deleteDelete sampleConfig
                       (deleteRequest (Some "s3cret") (VString "a.txt")) sampleWorld)).
Proof.
  apply (delete_twice sampleConfig (deleteRequest (Some "s3cret") (VString "a.txt"))
                      sampleWorld).
  - exists "s3cret". repeat split. discriminate.
  - reflexivity.
  - discriminate.
Defined.

(** X21.  One file uploaded and then deleted by the [path] the upload
    answered with: the upload wrote the file at the stored path, the
    delete is answered 200, and afterwards the files are those from
    before the upload, without the stored path. *)
Theorem upload_then_delete (cfg : Config) (req req' : Request) (w : World)
        (u : text) (part : FilePart) (resp : Response) :
  keyAccepted cfg req ->
  multipart req = Some [FileData part] ->
  partName part <> "" ->
  userPathOf PathUndefined req = PathText u ->
  snd (postUpload cfg req w) = Replied resp ->
  keyAccepted cfg req' ->
  queryFilenames req' = VArray [VString (uploadedPath (lowerCase w) u part)] ->
  files (fst (postUpload cfg req w))
  = <[storedPath (storedFile (uploadPathOf cfg (lowerCase w) u) part)
      := partContent part]> (files w)
  /\ snd (deleteDelete cfg req' (fst (postUpload cfg req w)))
     = Replied (mkResponse 200 (jsonMessage "Files deleted successfully."))
  /\ files (fst (deleteDelete cfg req' (fst (postUpload cfg req w))))
     = delete (storedPath (storedFile (uploadPathOf cfg (lowerCase w) u) part))
              (files w).
Proof.
  intros H Hm Hne Hu Hr H' Hq.
  set (stored := storedPath (storedFile (uploadPathOf cfg (lowerCase w) u) part)).
  assert (Hfiles : files (fst (postUpload cfg req w))
                   = <[stored := partContent part]> (files w)).
  { rewrite (postUpload_passed cfg req w (validateApiKey_accepts cfg req w H)) in Hr |- *.
    unfold uploadArray in Hr |- *. rewrite Hm in Hr |- *.
    cbn [arrive] in Hr |- *. apply nonEmpty_true in Hne. rewrite Hne in Hr |- *.
    rewrite (destination_text cfg PathUndefined req w u Hu) in Hr |- *.
    pose proof (mkdirRecursive_files (uploadPathOf cfg (lowerCase w) u) w) as Hmk.
    destruct (mkdirRecursive (uploadPathOf cfg (lowerCase w) u) w) as [w1 [e|]];
      cbn [fst snd app writeAll] in Hr, Hmk |- *; [discriminate Hr|].
    pose proof (writeFile_result stored (partContent part) w1) as Hw.
    unfold stored, storedFile in Hw. cbn [storedPath] in Hw.
    destruct (writeFile _ (partContent part) w1) as [w2 [e|]];
      cbn [fst snd app] in Hr, Hw |- *; [discriminate Hr|].
    change (destinationErrors [(part, inr (uploadPathOf cfg (lowerCase w) u))])
      with (@nil JsError).
    cbn [fst snd app]. rewrite Hw, Hmk. reflexivity. }
  assert (Ht : truthy (queryFilenames req') = true) by (rewrite Hq; reflexivity).
  assert (Hc : candidatesOf cfg req' = [stored]).
  { unfold candidatesOf. rewrite Hq. cbn [filesArrayOf List.map]. f_equal.
    unfold uploadedPath, stored, storedFile. cbn [storedPath].
    rewrite <- (proj1 (response_path_core cfg (lowerCase w) u (arrival part)
                                           (partName part))).
    apply response_path_core. }
  split; [exact Hfiles|].
  rewrite (deleteDelete_accepted cfg req' _ H' Ht). cbn [fst snd].
  fold (candidatesOf cfg req'). rewrite Hc.
  assert (Hfile : isFile stored (fst (postUpload cfg req w)) = true).
  { unfold isFile. rewrite Hfiles, lookup_insert_eq. apply bool_decide_eq_true. eauto. }
  rewrite unlinkAll_cons. cbn [unlinkAll fst snd]. split.
  - f_equal. apply deleteReport_clean. apply errorsOf_nil. constructor; [|constructor].
    apply unlink_ok_iff, Hfile.
  - rewrite unlink_files, Hfiles. apply delete_insert_eq.
Qed.

(** The file [a b.txt] uploaded to the path of the Kelvin sign U+212A
    and [ocs]. *)
Lemma upload_then_delete_witness :
  uploadedPath sampleLowerCase [8490; 111; 99; 115]%N
               (mkPart "a b.txt" "hi" 1700000000000)
  = "/uploads/kocs/1700000000000-a-b.txt"
  /\ snd (deleteDelete sampleConfig
            (deleteRequest (Some "s3cret")
               (VArray [VString (uploadedPath sampleLowerCase [8490; 111; 99; 115]%N
                                   (mkPart "a b.txt" "hi" 1700000000000))]))
            (fst (postUpload sampleConfig
                    (mkRequest (Some "s3cret") (PathText [8490; 111; 99; 115]%N)
                               VUndefined
                               (Some [FileData (mkPart "a b.txt" "hi" 1700000000000)])
                               FilesUndefined)
                    sampleWorld)))
     = Replied (mkResponse 200 (jsonMessage "Files deleted successfully.")).
Proof.
  split; [vm_compute; reflexivity|].
  eapply (upload_then_delete sampleConfig
            (mkRequest (Some "s3cret") (PathText [8490; 111; 99; 115]%N)
                       VUndefined
                       (Some [FileData (mkPart "a b.txt" "hi" 1700000000000)])
                       FilesUndefined)
            (deleteRequest (Some "s3cret")
               (VArray [VString (uploadedPath sampleLowerCase [8490; 111; 99; 115]%N
                                   (mkPart "a b.txt" "hi" 1700000000000))]))
            sampleWorld [8490; 111; 99; 115]%N (mkPart "a b.txt" "hi" 1700000000000)).
  - exists "s3cret". repeat split. discriminate.
  - reflexivity.
  - discriminate.
  - reflexivity.
  - vm_compute. reflexivity.
  - exists "s3cret". repeat split. discriminate.
  - reflexivity.
Defined.
